(** * Geoclue master process (src/master.c)

    A shallow embedding of the master's session bookkeeping: the provider
    list, the client list, the NameOwnerChanged filter, client creation and
    provider selection, followed by the properties the specification states
    about them.

    The file-level statics of master.c ([providers], [clients],
    [master_connection], the function-local static [serial]) are the fields
    of one record that every function takes and returns.  What the C code
    does to the outside world (g_print, g_warning, g_object_unref on a
    provider) is appended to a chronological effect list. *)

From Stdlib Require Import ZArith Lia Permutation Ascii String.
From stdpp Require Import base decidable list strings pretty.

Local Open Scope string_scope.
Local Open Scope list_scope.

(** ** Data model *)

(** A GObject instance is identified by its address. *)
Definition GObject := nat.

(** A DBusGConnection handle. *)
Definition DBusGConnection := nat.

(** The attributes of a GcMasterProvider that selection reads:
    interface (capability) flags, accuracy level, whether it can deliver
    updates, and the resources it needs. The two flag sets are bitsets. *)
Record GcMasterProvider := {
  provider_name : string;
  provider_interfaces : Z;
  provider_accuracy : Z;
  provider_can_update : bool;
  provider_resources : Z;
}.

(** A GcMasterClient: the object itself and the two properties master.c
    stores on it through gc_master_client_set_sender and
    gc_master_client_set_object_path ([None] is the NULL string). *)
Record GcMasterClient := {
  client_obj : GObject;
  client_sender : option string;
  client_object_path : option string;
}.

Definition gc_master_client_get_sender (client : GcMasterClient) : option string :=
  client_sender client.

Definition gc_master_client_get_object_path (client : GcMasterClient) : option string :=
  client_object_path client.

(** An argument of a printf-style call: a string, or something that is not
    one (the source hands a GDir pointer and a bus-type enum to a %s). *)
Inductive Arg :=
| AStr (s : string)
| AOther.

(** What the master does to the outside world, as the source calls it. *)
Inductive Effect :=
| GPrint (format : string) (args : list Arg)
| GWarning (format : string) (args : list Arg)
| ProviderUnref (provider : GcMasterProvider).

(** The statics of master.c, the objects registered on the bus connection
    (path and object), the allocator of g_object_new and the effects so
    far. [master->connection] and the static [master_connection] hold the
    same handle from gc_master_init on and are one field here. *)
Record Master := {
  providers : list GcMasterProvider;
  clients : list GcMasterClient;
  master_connection : option DBusGConnection;
  serial : Z;
  next_object : GObject;
  registered : list (string * GObject);
  effects : list Effect;
}.

(** The statics as the C runtime initialises them. *)
Definition statics0 : Master :=
  {| providers := []; clients := []; master_connection := None;
     serial := 0; next_object := 0; registered := []; effects := [] |}.

Definition set_providers (ps : list GcMasterProvider) (m : Master) : Master :=
  {| providers := ps; clients := clients m;
     master_connection := master_connection m; serial := serial m;
     next_object := next_object m; registered := registered m;
     effects := effects m |}.

Definition set_clients (cs : list GcMasterClient) (m : Master) : Master :=
  {| providers := providers m; clients := cs;
     master_connection := master_connection m; serial := serial m;
     next_object := next_object m; registered := registered m;
     effects := effects m |}.

Definition set_master_connection (c : option DBusGConnection) (m : Master) : Master :=
  {| providers := providers m; clients := clients m;
     master_connection := c; serial := serial m;
     next_object := next_object m; registered := registered m;
     effects := effects m |}.

Definition set_registered (r : list (string * GObject)) (m : Master) : Master :=
  {| providers := providers m; clients := clients m;
     master_connection := master_connection m; serial := serial m;
     next_object := next_object m; registered := r;
     effects := effects m |}.

Definition emit (es : list Effect) (m : Master) : Master :=
  {| providers := providers m; clients := clients m;
     master_connection := master_connection m; serial := serial m;
     next_object := next_object m; registered := registered m;
     effects := effects m ++ es |}.

(** ** GLib and D-Bus helpers *)

(** g_list_remove: drops the first node whose data is the given pointer,
    and leaves the list alone when there is none. *)
Fixpoint g_list_remove (l : list GcMasterClient) (data : GObject) : list GcMasterClient :=
  match l with
  | [] => []
  | c :: l' =>
      if decide (client_obj c = data) then l' else c :: g_list_remove l' data
  end.

(** dbus_g_connection_register_g_object / unregister_g_object. *)
Definition dbus_g_connection_register_g_object
    (path : string) (object : GObject) (m : Master) : Master :=
  match master_connection m with
  | Some _ => set_registered ((path, object) :: registered m) m
  | None => m
  end.

Definition dbus_g_connection_unregister_g_object (object : GObject) (m : Master) : Master :=
  set_registered (filter (λ r, r.2 ≠ object) (registered m)) m.

(** ** add_client, client_destroyed, find_client_by_sender *)

Definition add_client (client : GcMasterClient) (m : Master) : Master :=
  set_clients (client :: clients m) m.

(** The weak-reference callback. *)
Definition client_destroyed (old_client : GObject) (m : Master) : Master :=
  let m := set_clients (g_list_remove (clients m) old_client) m in
  match clients m, providers m with
  | [], _ :: _ =>
      set_providers [] (emit (map ProviderUnref (providers m)) m)
  | _, _ => m
  end.

Fixpoint find_client_by_sender (l : list GcMasterClient) (sender : string)
    : option GcMasterClient :=
  match l with
  | [] => None
  | client :: l' =>
      match gc_master_client_get_sender client with
      | Some client_sender =>
          if decide (client_sender = sender) then Some client
          else find_client_by_sender l' sender
      | None => find_client_by_sender l' sender
      end
  end.

(** g_object_unref on a client. master.c holds the one reference that
    g_object_new returned and takes no other, so dropping it finalises the
    object and GObject runs the weak-reference callback that add_client
    installed. *)
Definition g_object_unref (client : GcMasterClient) (m : Master) : Master :=
  client_destroyed (client_obj client) m.

(** ** name_owner_changed_filter *)

(** An incoming message: whether it is the NameOwnerChanged signal of the
    bus interface, and what dbus_message_get_args extracts for three string
    arguments ([None] when the body has another shape). *)
Record DBusMessage := {
  msg_is_name_owner_changed : bool;
  msg_args : option (string * option string * option string);
}.

Inductive DBusHandlerResult :=
| DBUS_HANDLER_RESULT_HANDLED
| DBUS_HANDLER_RESULT_NOT_YET_HANDLED.

(** [s && *s] *)
Definition non_empty (s : option string) : bool :=
  match s with
  | Some (String _ _) => true
  | _ => false
  end.

Definition name_owner_changed_filter (message : DBusMessage) (m : Master)
    : Master * DBusHandlerResult :=
  if negb (msg_is_name_owner_changed message)
  then (m, DBUS_HANDLER_RESULT_NOT_YET_HANDLED)
  else
    match msg_args message with
    | None => (m, DBUS_HANDLER_RESULT_NOT_YET_HANDLED)
    | Some (name, old_owner, new_owner) =>
        if non_empty old_owner && negb (non_empty new_owner) then
          match find_client_by_sender (clients m) name with
          | Some client =>
              let m := emit [GPrint "Client %s disconnected, cleaning up\n" [AStr name]] m in
              let m :=
                match gc_master_client_get_object_path client, master_connection m with
                | Some _, Some _ =>
                    dbus_g_connection_unregister_g_object (client_obj client) m
                | Some _, None =>
                    emit [GWarning "Cannot unregister client %s: master_connection is NULL"
                            [AStr name]] m
                | None, _ => m
                end in
              (g_object_unref client m, DBUS_HANDLER_RESULT_NOT_YET_HANDLED)
          | None => (m, DBUS_HANDLER_RESULT_NOT_YET_HANDLED)
          end
        else (m, DBUS_HANDLER_RESULT_NOT_YET_HANDLED)
    end.

(** ** gc_iface_master_create *)

Definition GEOCLUE_MASTER_PATH : string := "/org/freedesktop/Geoclue/Master/client".

(** The [%d] of g_strdup_printf applied to the guint32 [serial]: the 32 bits
    are read as a signed int. *)
Definition printf_d (v : Z) : string :=
  pretty (if decide (v < 2 ^ 31)%Z then v else (v - 2 ^ 32)%Z).

(** Returns the new statics and the path handed to dbus_g_method_return. *)
Definition gc_iface_master_create (sender : string) (m : Master) : Master * string :=
  let path := GEOCLUE_MASTER_PATH +:+ printf_d (serial m) in
  let client :=
    {| client_obj := next_object m;
       client_sender := Some sender;
       client_object_path := Some path |} in
  let m :=
    {| providers := providers m; clients := clients m;
       master_connection := master_connection m;
       serial := ((serial m + 1) mod 2 ^ 32)%Z;
       next_object := S (next_object m); registered := registered m;
       effects := effects m |} in
  let m := dbus_g_connection_register_g_object path (client_obj client) m in
  (add_client client m, path).

(** ** Provider selection *)

(** Modelled from the spec: gc_master_provider_is_good is defined in
    master-provider.c, which is not among the sources; master.c only calls
    it. The specification gives its meaning: a provider qualifies iff its
    capability flags are a superset of the requested flags, its accuracy is
    at least the minimum, it is update-capable if that is required, and its
    resource flags are a subset of the allowed flags. *)
Definition gc_master_provider_is_good (provider : GcMasterProvider)
    (iface_type min_accuracy : Z) (can_update : bool) (allowed : Z) : bool :=
  (Z.land (provider_interfaces provider) iface_type =? iface_type)%Z
  && (min_accuracy <=? provider_accuracy provider)%Z
  && implb can_update (provider_can_update provider)
  && (Z.land (provider_resources provider) allowed =? provider_resources provider)%Z.

(** The for loop of gc_master_get_providers: [l] is the cursor, [p] the
    list built by g_list_prepend. *)
Fixpoint get_providers_loop (l p : list GcMasterProvider)
    (iface_type min_accuracy : Z) (can_update : bool) (allowed : Z)
    : list GcMasterProvider :=
  match l with
  | [] => p
  | provider :: l' =>
      get_providers_loop l'
        (if gc_master_provider_is_good provider iface_type min_accuracy can_update allowed
         then provider :: p else p)
        iface_type min_accuracy can_update allowed
  end.

(** A GError out-parameter: [None] while no error is set. *)
Definition GError := string.

(** Returns the list and the content of [*error] afterwards. *)
Definition gc_master_get_providers
    (iface_type min_accuracy : Z) (can_update : bool) (allowed : Z)
    (error : option GError) (m : Master)
    : list GcMasterProvider * option GError :=
  match providers m with
  | [] => ([], error)
  | _ :: _ =>
      (get_providers_loop (providers m) [] iface_type min_accuracy can_update allowed,
       error)
  end.

(** ** Loading the providers *)

(** strrchr: the tail of [s] that starts at the last occurrence of [c]. *)
Fixpoint strrchr (s : string) (c : Ascii.ascii) : option string :=
  match s with
  | EmptyString => None
  | String a s' =>
      match strrchr s' c with
      | Some r => Some r
      | None => if Ascii.eqb a c then Some s else None
      end
  end.

Definition PROVIDER_EXTENSION : string := ".provider".

Section Loading.

(** What the build and the libraries supply: the directory scanned, the
    provider constructor of master-provider.c (NULL, here [None], when
    the keyfile cannot be loaded) and GLib's path join. *)
Variable GEOCLUE_PROVIDERS_DIR : string.
Variable gc_master_provider_new : string → option GcMasterProvider.
Variable g_build_filename : string → string → string.

Definition gc_master_add_new_provider (filename : string) (m : Master) : Master :=
  match gc_master_provider_new filename with
  | None => emit [GWarning "Loading from %s failed" [AStr filename]] m
  | Some provider => set_providers (provider :: providers m) m
  end.

(** The while loop over the names g_dir_read_name yields. *)
Fixpoint load_providers_loop (filenames : list string) (m : Master) : Master :=
  match filenames with
  | [] => m
  | filename :: rest =>
      let m := emit [GPrint "  %s\n" [AStr filename]] m in
      match strrchr filename "."%char with
      | Some ext =>
          if decide (ext = PROVIDER_EXTENSION) then
            let fullname := g_build_filename GEOCLUE_PROVIDERS_DIR filename in
            load_providers_loop rest (gc_master_add_new_provider fullname m)
          else
            load_providers_loop rest (emit [GPrint "   - Ignored\n" []] m)
      | None =>
          load_providers_loop rest (emit [GPrint "   - Ignored\n" []] m)
      end
  end.

(** [dir] is what g_dir_open gives: the error message, or the entries. *)
Definition gc_master_load_providers (dir : string + list string) (m : Master) : Master :=
  match dir with
  | inl message =>
      emit [GWarning "Error opening %s: %s\n" [AStr GEOCLUE_PROVIDERS_DIR; AStr message]] m
  | inr filenames =>
      let m :=
        match filenames with
        | [] => emit [GPrint "No providers found in %s\n" [AOther]] m
        | _ :: _ => emit [GPrint "Found providers:\n" []] m
        end in
      load_providers_loop filenames m
  end.

(** [bus] is what dbus_g_bus_get gives: the error message, or the
    connection. Installing the filter and the match rule is what makes
    the bus deliver messages to name_owner_changed_filter. *)
Definition gc_master_init (bus : string + DBusGConnection)
    (dir : string + list string) (m : Master) : Master :=
  match bus with
  | inl message => emit [GWarning "Could not get %s: %s" [AOther; AStr message]] m
  | inr connection =>
      let m := set_master_connection (Some connection) m in
      gc_master_load_providers dir m
  end.

End Loading.

(** ** The master as a state machine *)

(** What can happen to a running master: a Create call from a peer, the
    finalisation of a client object, a message passing the filter. *)
Inductive Op :=
| Create (sender : string)
| Destroy (old_client : GObject)
| Notify (message : DBusMessage).

Definition step (op : Op) (m : Master) : Master :=
  match op with
  | Create sender => (gc_iface_master_create sender m).1
  | Destroy old_client => client_destroyed old_client m
  | Notify message => (name_owner_changed_filter message m).1
  end.

Definition run (ops : list Op) (m : Master) : Master :=
  fold_left (λ m op, step op m) ops m.

(** Session operations: the ones that create or destroy a client. *)
Definition session_op (op : Op) : bool :=
  match op with
  | Create _ | Destroy _ => true
  | Notify _ => false
  end.

(** The paths the Create calls of a run return, oldest first. *)
Fixpoint handles (ops : list Op) (m : Master) : list string :=
  match ops with
  | [] => []
  | op :: ops' =>
      match op with
      | Create sender => [(gc_iface_master_create sender m).2]
      | _ => []
      end ++ handles ops' (step op m)
  end.

(** The peer-disappearance signal for [name]. *)
Definition name_lost (name : string) : DBusMessage :=
  {| msg_is_name_owner_changed := true;
     msg_args := Some (name, Some name, Some "") |}.

(** The providers released so far, oldest first. *)
Definition released (m : Master) : list GcMasterProvider :=
  omap (λ e, match e with ProviderUnref p => Some p | _ => None end) (effects m).

(** A master that came up: it has its bus connection, the tracked clients
    are distinct objects handed out by the allocator, and each carries the
    object path it was registered under. *)
Definition running (m : Master) : Prop :=
  is_Some (master_connection m)
  ∧ NoDup (map client_obj (clients m))
  ∧ Forall (λ c, client_obj c < next_object m ∧ is_Some (client_object_path c))
           (clients m).

(** A session is gone when the client list no longer holds it and no bus
    registration refers to its object. *)
Definition session_destroyed (c : GcMasterClient) (m : Master) : Prop :=
  (c ∉ clients m) ∧ (∀ r, r ∈ registered m → r.2 ≠ client_obj c).

(** The four qualification predicates, on the bits of the flag sets. *)
Definition flags_subset (a b : Z) : Prop :=
  ∀ i, (0 ≤ i)%Z → Z.testbit a i = true → Z.testbit b i = true.

Definition qualifies (p : GcMasterProvider)
    (iface_type min_accuracy : Z) (can_update : bool) (allowed : Z) : Prop :=
  flags_subset iface_type (provider_interfaces p)
  ∧ (min_accuracy ≤ provider_accuracy p)%Z
  ∧ (can_update = true → provider_can_update p = true)
  ∧ flags_subset (provider_resources p) allowed.

(** A file name the scan accepts: its last dot starts the extension. *)
Definition has_provider_extension (filename : string) : bool :=
  bool_decide (strrchr filename "."%char = Some PROVIDER_EXTENSION).

(** At most one tracked session has the given sender. *)
Definition one_session_of (name : string) (m : Master) : Prop :=
  ∀ c c', c ∈ clients m → c' ∈ clients m →
          client_sender c = Some name → client_sender c' = Some name → c = c'.

(** How many Create calls a run holds. *)
Definition creations (ops : list Op) : nat :=
  length (List.filter (λ op, match op with Create _ => true | _ => false end) ops).

(** What one directory entry contributes to a scan: the provider it yields,
    if any, and the lines it adds to the log. *)
Section Scan.

Variable GEOCLUE_PROVIDERS_DIR : string.
Variable gc_master_provider_new : string → option GcMasterProvider.
Variable g_build_filename : string → string → string.

Definition loaded_from (filename : string) : option GcMasterProvider :=
  if has_provider_extension filename
  then gc_master_provider_new (g_build_filename GEOCLUE_PROVIDERS_DIR filename)
  else None.

Definition file_log (filename : string) : list Effect :=
  GPrint "  %s\n" [AStr filename]
  :: (if has_provider_extension filename then
        match gc_master_provider_new (g_build_filename GEOCLUE_PROVIDERS_DIR filename) with
        | Some _ => []
        | None =>
            [GWarning "Loading from %s failed"
               [AStr (g_build_filename GEOCLUE_PROVIDERS_DIR filename)]]
        end
      else [GPrint "   - Ignored\n" []]).

(** The entry is a keyfile whose provider cannot be constructed. *)
Definition load_fails (filename : string) : bool :=
  has_provider_extension filename
  && bool_decide
       (gc_master_provider_new (g_build_filename GEOCLUE_PROVIDERS_DIR filename) = None).

Definition scan_header (filenames : list string) : Effect :=
  match filenames with
  | [] => GPrint "No providers found in %s\n" [AOther]
  | _ :: _ => GPrint "Found providers:\n" []
  end.

End Scan.

(** The warnings in a log. *)
Definition warnings (es : list Effect) : list Effect :=
  List.filter (λ e, match e with GWarning _ _ => true | _ => false end) es.

(** The operations that reach the master over the bus: Create calls and
    messages. *)
Definition bus_op (op : Op) : bool :=
  match op with
  | Destroy _ => false
  | Create _ | Notify _ => true
  end.

(** The bus registrations are those of the tracked clients, in the order
    of the client list, each under the client's own path. *)
Definition mirrors (m : Master) : Prop :=
  map (λ r : string * GObject, (Some r.1, r.2)) (registered m)
  = map (λ c, (client_object_path c, client_obj c)) (clients m).

(** A client as gc_iface_master_create makes it: it has a sender, and its
    path is the prefix followed by a printed guint32. *)
Definition session_shaped (c : GcMasterClient) : Prop :=
  is_Some (client_sender c)
  ∧ ∃ v, (0 ≤ v < 2 ^ 32)%Z
         ∧ client_object_path c = Some (GEOCLUE_MASTER_PATH +:+ printf_d v).

(** The same message delivered [n] times in a row. *)
Fixpoint deliver (n : nat) (message : DBusMessage) (m : Master) : Master :=
  match n with
  | 0 => m
  | S n' => deliver n' message (name_owner_changed_filter message m).1
  end.

(** The clients of a list whose sender is [name], and the others. *)
Definition sessions_of (name : string) (l : list GcMasterClient) : list GcMasterClient :=
  List.filter (λ c, bool_decide (client_sender c = Some name)) l.

Definition sessions_of_others (name : string) (l : list GcMasterClient)
    : list GcMasterClient :=
  List.filter (λ c, negb (bool_decide (client_sender c = Some name))) l.

(** ** A concrete installation, for examples *)

Module Demo.

Definition provider (name : string) : GcMasterProvider :=
  {| provider_name := name; provider_interfaces := 3;
     provider_accuracy := 5; provider_can_update := true;
     provider_resources := 1 |}.

Definition providers_dir : string := "/usr/share/geoclue-providers".

Definition build_filename (dir file : string) : string := dir +:+ "/" +:+ file.

(** Every keyfile loads, except the one called broken.provider. *)
Definition provider_new (filename : string) : option GcMasterProvider :=
  if decide (filename = build_filename providers_dir "broken.provider")
  then None else Some (provider filename).

Definition directory : list string :=
  ["gpsd.provider"; "broken.provider"; "README"; "hostip.provider";
   "manual.provider"].

(** The master after gc_master_init on that directory. *)
Definition master : Master :=
  gc_master_init providers_dir provider_new build_filename
    (inr 1) (inr directory) statics0.

End Demo.

(** * Properties *)

(** Unfolds the setters so that projections of an updated master compute. *)
Ltac unfold_setters :=
  unfold add_client, dbus_g_connection_register_g_object,
    dbus_g_connection_unregister_g_object, set_providers, set_clients,
    set_master_connection, set_registered, emit in *; cbn [providers clients
    master_connection serial next_object registered effects] in *.

(** ** Effects of the single functions on the statics *)

Section Projections.

Variable m : Master.

Lemma client_destroyed_clients old :
  clients (client_destroyed old m) = g_list_remove (clients m) old.
Proof.
  unfold client_destroyed; unfold_setters.
  destruct (g_list_remove (clients m) old), (providers m); reflexivity.
Qed.

Lemma client_destroyed_providers old :
  providers (client_destroyed old m) =
  match g_list_remove (clients m) old with [] => [] | _ :: _ => providers m end.
Proof.
  unfold client_destroyed; unfold_setters.
  destruct (g_list_remove (clients m) old), (providers m); reflexivity.
Qed.

Lemma client_destroyed_effects old :
  effects (client_destroyed old m) =
  effects m ++ match g_list_remove (clients m) old with
               | [] => map ProviderUnref (providers m)
               | _ :: _ => []
               end.
Proof.
  unfold client_destroyed; unfold_setters.
  destruct (g_list_remove (clients m) old), (providers m); simpl;
    rewrite ?app_nil_r; reflexivity.
Qed.

Lemma client_destroyed_rest old :
  master_connection (client_destroyed old m) = master_connection m
  ∧ serial (client_destroyed old m) = serial m
  ∧ next_object (client_destroyed old m) = next_object m
  ∧ registered (client_destroyed old m) = registered m.
Proof.
  unfold client_destroyed; unfold_setters.
  destruct (g_list_remove (clients m) old), (providers m); simpl; auto.
Qed.

Lemma create_fields sender :
  let m' := (gc_iface_master_create sender m).1 in
  let path := (gc_iface_master_create sender m).2 in
  path = GEOCLUE_MASTER_PATH +:+ printf_d (serial m)
  ∧ providers m' = providers m
  ∧ clients m' =
      {| client_obj := next_object m; client_sender := Some sender;
         client_object_path := Some path |} :: clients m
  ∧ master_connection m' = master_connection m
  ∧ serial m' = ((serial m + 1) mod 2 ^ 32)%Z
  ∧ next_object m' = S (next_object m)
  ∧ effects m' = effects m.
Proof.
  unfold gc_iface_master_create; unfold_setters.
  destruct (master_connection m); simpl; auto 10.
Qed.

End Projections.

Lemma released_app (m : Master) (ps : list GcMasterProvider) :
  omap (λ e, match e with ProviderUnref p => Some p | _ => None end)
       (effects m ++ map ProviderUnref ps) = released m ++ ps.
Proof.
  rewrite omap_app. fold (released m). f_equal.
  induction ps as [|p ps IH]; [reflexivity|]. cbn. now f_equal.
Qed.

Lemma client_destroyed_released old m :
  released (client_destroyed old m) =
  released m ++ match g_list_remove (clients m) old with
                | [] => providers m
                | _ :: _ => []
                end.
Proof.
  unfold released at 1. rewrite client_destroyed_effects.
  destruct (g_list_remove (clients m) old).
  - apply released_app.
  - now rewrite !app_nil_r.
Qed.

(** The filter either leaves the master as it is, or finds a client for a
    vanished name, drops its bus registration and finalises it. *)
Lemma name_owner_changed_filter_cases message m :
  name_owner_changed_filter message m = (m, DBUS_HANDLER_RESULT_NOT_YET_HANDLED)
  ∨ ∃ name old_owner new_owner client m1,
      msg_is_name_owner_changed message = true
      ∧ msg_args message = Some (name, old_owner, new_owner)
      ∧ non_empty old_owner = true ∧ non_empty new_owner = false
      ∧ find_client_by_sender (clients m) name = Some client
      ∧ providers m1 = providers m ∧ clients m1 = clients m
      ∧ master_connection m1 = master_connection m
      ∧ serial m1 = serial m ∧ next_object m1 = next_object m
      ∧ released m1 = released m
      ∧ (registered m1 = registered m
         ∨ registered m1 = filter (λ r, r.2 ≠ client_obj client) (registered m))
      ∧ (is_Some (client_object_path client) → is_Some (master_connection m) →
         registered m1 = filter (λ r, r.2 ≠ client_obj client) (registered m))
      ∧ name_owner_changed_filter message m =
          (client_destroyed (client_obj client) m1, DBUS_HANDLER_RESULT_NOT_YET_HANDLED).
Proof.
  unfold name_owner_changed_filter.
  destruct (msg_is_name_owner_changed message); simpl; [|now left].
  destruct (msg_args message) as [[[name old_owner] new_owner]|]; [|now left].
  destruct (non_empty old_owner) eqn:Hold; simpl; [|now left].
  destruct (non_empty new_owner) eqn:Hnew; simpl; [now left|].
  destruct (find_client_by_sender (clients m) name) as [client|] eqn:Hfind; [|now left].
  right. unfold gc_master_client_get_object_path, g_object_unref.
  exists name, old_owner, new_owner, client.
  destruct (client_object_path client) as [path|];
    [change (master_connection (emit _ m)) with (master_connection m);
     destruct (master_connection m) as [conn|] eqn:Hconn|];
    (eexists; do 5 (split; [first [reflexivity | assumption]|]);
     split; [|split; [|split; [|split; [|split; [|split; [|split;
       [|split; [|reflexivity]]]]]]]]);
    unfold released; unfold_setters; rewrite ?omap_app, ?app_nil_r;
    auto; try solve [intros _ [? [=]] | intros [? [=]]].
Qed.

(** ** g_list_remove and find_client_by_sender *)

Lemma g_list_remove_elem l data c : c ∈ g_list_remove l data → c ∈ l.
Proof.
  induction l as [|c' l IH]; simpl; [trivial|].
  destruct (decide (client_obj c' = data)).
  - now right.
  - intros [->|H]%elem_of_cons; [left | right; auto].
Qed.

Lemma g_list_remove_NoDup l data :
  NoDup (map client_obj l) → NoDup (map client_obj (g_list_remove l data)).
Proof.
  induction l as [|c l IH]; simpl; [trivial|].
  intros [Hc Hnd]%NoDup_cons.
  destruct (decide (client_obj c = data)); [assumption|].
  simpl. apply NoDup_cons. split; [|auto].
  intros (c' & Heq & Hin)%list_elem_of_fmap. apply Hc.
  apply list_elem_of_fmap. exists c'. split; [assumption|].
  now apply g_list_remove_elem in Hin.
Qed.

Lemma g_list_remove_absent l data :
  data ∉ map client_obj l → g_list_remove l data = l.
Proof.
  induction l as [|c l IH]; simpl; [reflexivity|].
  intros Hnot. apply not_elem_of_cons in Hnot as [Hne Hnot].
  destruct (decide (client_obj c = data)); [congruence|].
  now rewrite IH.
Qed.

(** With distinct objects in the list, the removed object is gone. *)
Lemma g_list_remove_gone l data :
  NoDup (map client_obj l) → data ∉ map client_obj (g_list_remove l data).
Proof.
  induction l as [|c l IH]; simpl; intros Hnd.
  - apply not_elem_of_nil.
  - apply NoDup_cons in Hnd as [Hc Hnd].
    destruct (decide (client_obj c = data)) as [<-|Hne]; [assumption|].
    simpl. apply not_elem_of_cons. split; [congruence | auto].
Qed.

Lemma find_client_by_sender_Some l sender client :
  find_client_by_sender l sender = Some client →
  client ∈ l ∧ client_sender client = Some sender.
Proof.
  induction l as [|c l IH]; simpl; [discriminate|].
  unfold gc_master_client_get_sender.
  destruct (client_sender c) as [s|] eqn:Hs.
  - destruct (decide (s = sender)) as [->|].
    + intros [= <-]. split; [left | assumption].
    + intros H. destruct (IH H). split; [now right | assumption].
  - intros H. destruct (IH H). split; [now right | assumption].
Qed.

Lemma find_client_by_sender_None l sender :
  find_client_by_sender l sender = None ↔
  ∀ c, c ∈ l → client_sender c ≠ Some sender.
Proof.
  induction l as [|c l IH]; simpl.
  - split; [intros _ c Hc; inversion Hc | reflexivity].
  - unfold gc_master_client_get_sender.
    destruct (client_sender c) as [s|] eqn:Hs.
    + destruct (decide (s = sender)) as [->|Hne].
      * split; [discriminate|]. intros H. destruct (H c); [left | assumption].
      * rewrite IH. split.
        -- intros H c' Hc'. apply elem_of_cons in Hc' as [->|Hc']; [congruence | auto].
        -- intros H c' Hc'. apply H. now right.
    + rewrite IH. split.
      * intros H c' Hc'. apply elem_of_cons in Hc' as [->|Hc']; [congruence | auto].
      * intros H c' Hc'. apply H. now right.
Qed.

(** ** The running invariant *)

Lemma running_client_destroyed old m :
  running m → running (client_destroyed old m).
Proof.
  intros (Hconn & Hnd & Hall). unfold running.
  destruct (client_destroyed_rest m old) as (-> & _ & -> & _).
  rewrite client_destroyed_clients.
  split; [assumption|]. split.
  - now apply g_list_remove_NoDup.
  - rewrite Forall_forall in *. intros c Hc.
    apply Hall. now apply g_list_remove_elem in Hc.
Qed.

Lemma running_create sender m :
  running m → running (gc_iface_master_create sender m).1.
Proof.
  intros (Hconn & Hnd & Hall). unfold running.
  destruct (create_fields m sender) as (_ & _ & -> & -> & _ & -> & _).
  split; [assumption|]. rewrite Forall_forall in Hall. split.
  - simpl. apply NoDup_cons. split; [|assumption].
    intros (c & Heq & Hin)%list_elem_of_fmap.
    destruct (Hall c Hin) as [Hlt _]. lia.
  - apply Forall_cons. split.
    + simpl. split; [lia | eexists; reflexivity].
    + apply Forall_forall. intros c Hc. destruct (Hall c Hc). split; [lia | assumption].
Qed.

Lemma running_filter message m :
  running m → running (name_owner_changed_filter message m).1.
Proof.
  intros Hrun.
  destruct (name_owner_changed_filter_cases message m)
    as [->|(name & old & new & client & m1 & _ & _ & _ & _ & _ & _ & Hcl & Hconn
             & _ & Hnext & _ & _ & _ & ->)]; [assumption|].
  cbn [fst]. apply running_client_destroyed.
  unfold running. now rewrite Hcl, Hconn, Hnext.
Qed.

Lemma running_step op m : running m → running (step op m).
Proof.
  destruct op; unfold step;
    [apply running_create | apply running_client_destroyed | apply running_filter].
Qed.

Lemma running_run ops m : running m → running (run ops m).
Proof.
  revert m. induction ops as [|op ops IH]; simpl; [trivial|].
  intros m Hrun. apply IH. now apply running_step.
Qed.

Lemma run_app ops1 ops2 m : run (ops1 ++ ops2) m = run ops2 (run ops1 m).
Proof. unfold run. apply fold_left_app. Qed.

Section LoadingFacts.

Variable GEOCLUE_PROVIDERS_DIR : string.
Variable gc_master_provider_new : string → option GcMasterProvider.
Variable g_build_filename : string → string → string.

Let load_loop :=
  load_providers_loop GEOCLUE_PROVIDERS_DIR gc_master_provider_new g_build_filename.

(** Loading touches the provider list and the log, nothing else. *)
Lemma load_providers_loop_rest filenames m :
  clients (load_loop filenames m) = clients m
  ∧ master_connection (load_loop filenames m) = master_connection m
  ∧ serial (load_loop filenames m) = serial m
  ∧ next_object (load_loop filenames m) = next_object m
  ∧ registered (load_loop filenames m) = registered m.
Proof.
  subst load_loop. revert m.
  induction filenames as [|f fs IH]; intros m; simpl; [auto|].
  destruct (strrchr f ".") as [ext|]; [destruct (decide (ext = PROVIDER_EXTENSION))|];
    unfold gc_master_add_new_provider;
    try destruct (gc_master_provider_new _);
    match goal with |- context [load_providers_loop _ _ _ fs ?m'] =>
      destruct (IH m') as (-> & -> & -> & -> & ->) end;
    unfold_setters; auto.
Qed.

(** A master whose bus connection came up is running, with no client. *)
Lemma running_init connection dir :
  running (gc_master_init GEOCLUE_PROVIDERS_DIR gc_master_provider_new
             g_build_filename (inr connection) dir statics0)
  ∧ clients (gc_master_init GEOCLUE_PROVIDERS_DIR gc_master_provider_new
             g_build_filename (inr connection) dir statics0) = [].
Proof.
  unfold gc_master_init, gc_master_load_providers, running.
  destruct dir as [message|filenames].
  - unfold_setters. simpl. repeat split; eauto using NoDup_nil_2.
  - destruct (load_providers_loop_rest filenames
      (match filenames with
       | [] => emit [GPrint "No providers found in %s\n" [AOther]]
                 (set_master_connection (Some connection) statics0)
       | _ :: _ => emit [GPrint "Found providers:\n" []]
                 (set_master_connection (Some connection) statics0)
       end)) as (Hc & Hm & _ & _ & _).
    subst load_loop. rewrite Hc, Hm.
    destruct filenames; unfold_setters; simpl;
      repeat split; eauto using NoDup_nil_2.
Qed.

End LoadingFacts.

(** ** The registry along a run *)

(** A step leaves the registry as it is or releases all of it. *)
Lemma step_registry op m :
  (providers (step op m) = providers m ∧ released (step op m) = released m)
  ∨ (providers (step op m) = [] ∧ released (step op m) = released m ++ providers m).
Proof.
  assert (Hcd : ∀ old m1, providers m1 = providers m → released m1 = released m →
    (providers (client_destroyed old m1) = providers m
     ∧ released (client_destroyed old m1) = released m)
    ∨ (providers (client_destroyed old m1) = []
     ∧ released (client_destroyed old m1) = released m ++ providers m)).
  { intros old m1 Hp Hr.
    rewrite client_destroyed_providers, client_destroyed_released, Hp, Hr.
    destruct (g_list_remove (clients m1) old); [right | left];
      rewrite ?app_nil_r; auto. }
  destruct op as [sender|old|message]; cbn [step].
  - left. destruct (create_fields m sender) as (_ & Hp & _ & _ & _ & _ & He).
    unfold released. now rewrite Hp, He.
  - now apply Hcd.
  - destruct (name_owner_changed_filter_cases message m)
      as [->|(name & old & new & client & m1 & _ & _ & _ & _ & _ & Hp & _ & _
               & _ & _ & Hr & _ & _ & ->)]; [now left|].
    cbn [fst]. now apply Hcd.
Qed.

(** Nothing in a run fills an empty registry or releases from it. *)
Lemma run_empty_registry ops m :
  providers m = [] →
  providers (run ops m) = [] ∧ released (run ops m) = released m.
Proof.
  revert m. induction ops as [|op ops IH]; intros m Hm; simpl; [auto|].
  destruct (step_registry op m) as [[Hp Hr]|[Hp Hr]];
    rewrite Hm, ?app_nil_r in *;
    destruct (IH (step op m) Hp) as [-> ->]; auto.
Qed.

(** Creation tracks a client; the callback leaves either clients or an
    empty registry. *)
Lemma session_op_registry op m :
  session_op op = true →
  providers (step op m) ≠ [] → clients (step op m) ≠ [].
Proof.
  destruct op as [sender|old|message]; cbn [step session_op];
    [| |discriminate]; intros _.
  - destruct (create_fields m sender) as (_ & _ & -> & _). discriminate.
  - rewrite client_destroyed_providers, client_destroyed_clients.
    destruct (g_list_remove (clients m) old); [congruence | discriminate].
Qed.

Lemma client_destroyed_idle old m :
  clients m = [] → providers m = [] → client_destroyed old m = m.
Proof.
  destruct m as [ps cs conn ser next reg eff]; simpl.
  intros -> ->. reflexivity.
Qed.

(** The callback for the only client empties the registry. *)
Lemma only_client_empties_registry m c :
  clients m = [c] →
  providers (client_destroyed (client_obj c) m) = []
  ∧ serial (client_destroyed (client_obj c) m) = serial m.
Proof.
  intros Hc. rewrite client_destroyed_providers, Hc. simpl.
  destruct (decide (client_obj c = client_obj c)); [|congruence].
  now destruct (client_destroyed_rest m (client_obj c)) as (_ & -> & _).
Qed.

(** ** Idle teardown *)

(** C1, in the words of the specification, fails on the code: the registry
    is loaded once by gc_master_init and released when the last client
    goes; a client created after that is tracked while the registry is
    empty. Here a peer connects, its client is finalised, and another peer
    connects. *)
Lemma idle_teardown_iff_fails :
  ¬ (providers (run [Create ":1.42"; Destroy 0; Create ":1.43"] Demo.master) ≠ []
     ↔ clients (run [Create ":1.42"; Destroy 0; Create ":1.43"] Demo.master) ≠ []).
Proof.
  intros [_ H]. apply H; [vm_compute; discriminate | vm_compute; reflexivity].
Qed.

(** C1, amended: after every session-create or session-destroy operation of
    any run, a non-empty provider list implies a non-empty client list. *)
Theorem registry_nonempty_only_with_clients (m : Master) (ops : list Op) (op : Op) :
  session_op op = true →
  providers (run (ops ++ [op]) m) ≠ [] →
  clients (run (ops ++ [op]) m) ≠ [].
Proof.
  rewrite run_app. cbn [run fold_left]. apply session_op_registry.
Qed.

Lemma registry_nonempty_only_with_clients_witness :
  clients (run ([Create ":1.42"; Create ":1.43"] ++ [Destroy 0]) Demo.master) ≠ [].
Proof.
  apply registry_nonempty_only_with_clients;
    [reflexivity | vm_compute; discriminate].
Defined.

(** With distinct objects in the list, g_list_remove drops exactly the
    nodes of the given object. *)
Lemma g_list_remove_filter (l : list GcMasterClient) (data : GObject) :
  NoDup (map client_obj l) →
  g_list_remove l data = filter (λ c, client_obj c ≠ data) l.
Proof.
  induction l as [|c l IH]; simpl; [reflexivity|].
  intros [Hc Hnd]%NoDup_cons.
  destruct (decide (client_obj c = data)) as [Hd|Hd].
  - rewrite filter_cons_False by (intros Hne; now apply Hne).
    subst data. rewrite <- (IH Hnd). symmetry. now apply g_list_remove_absent.
  - rewrite filter_cons_True by assumption. now rewrite IH.
Qed.

(** Along a run the released providers follow the registry: nothing more
    is released while it is as the run found it, and each of its
    providers has been released once when it is empty. *)
Lemma run_released ops m :
  (providers (run ops m) = providers m ∨ providers (run ops m) = [])
  ∧ released (run ops m)
    = released m ++ match providers (run ops m) with
                    | [] => providers m
                    | _ :: _ => []
                    end.
Proof.
  revert m. induction ops as [|op ops IH]; intros m.
  - simpl. split; [now left|]. destruct (providers m); now rewrite app_nil_r.
  - cbn [run fold_left]. fold (run ops (step op m)).
    destruct (IH (step op m)) as [Hp Hr]. rewrite Hr.
    destruct (step_registry op m) as [[Hsp Hsr]|[Hsp Hsr]].
    + rewrite Hsp in Hp. rewrite Hsp, Hsr. auto.
    + destruct (run_empty_registry ops _ Hsp) as [Hrun _].
      rewrite Hrun, Hsp, Hsr, app_nil_r. auto.
Qed.

(** C2: the callback first removes the destroyed client, and only that
    one, from the client list, and then tests the list. If the list is now
    empty, the client was the last: every provider is unreferenced once,
    in list order, and the provider list is emptied. If other clients are
    still tracked, nothing is released and the provider list is as it was.
    Whatever operations follow, the provider list is either still the one
    the callback found or empty, and the providers released since before
    the callback are none in the first case and each provider once in the
    second: a later destruction never releases a second time. *)
Theorem last_client_releases_once (m : Master) (old_client : GObject) (ops : list Op) :
  NoDup (map client_obj (clients m)) →
  clients (client_destroyed old_client m)
  = filter (λ c, client_obj c ≠ old_client) (clients m)
  ∧ providers (client_destroyed old_client m)
    = match filter (λ c, client_obj c ≠ old_client) (clients m) with
      | [] => []
      | _ :: _ => providers m
      end
  ∧ effects (client_destroyed old_client m)
    = effects m ++ match filter (λ c, client_obj c ≠ old_client) (clients m) with
                   | [] => map ProviderUnref (providers m)
                   | _ :: _ => []
                   end
  ∧ (providers (run ops (client_destroyed old_client m)) = providers m
     ∨ providers (run ops (client_destroyed old_client m)) = [])
  ∧ released (run ops (client_destroyed old_client m))
    = released m ++ match providers (run ops (client_destroyed old_client m)) with
                    | [] => providers m
                    | _ :: _ => []
                    end.
Proof.
  intros Hnd. rewrite <- (g_list_remove_filter _ old_client Hnd).
  split; [apply client_destroyed_clients|].
  split; [apply client_destroyed_providers|].
  split; [apply client_destroyed_effects|].
  destruct (run_released ops (client_destroyed old_client m)) as [Hp Hr].
  rewrite Hr, client_destroyed_released, client_destroyed_providers. clear Hr.
  rewrite client_destroyed_providers in Hp.
  destruct (g_list_remove (clients m) old_client) as [|c rest].
  - assert (Hrun : providers (run ops (client_destroyed old_client m)) = [])
      by (destruct Hp; assumption).
    rewrite Hrun, app_nil_r. auto.
  - rewrite app_nil_r. auto.
Qed.

Lemma last_client_releases_once_witness :
  clients (client_destroyed 0 (run [Create ":1.42"; Create ":1.43"] Demo.master))
  = filter (λ c, client_obj c ≠ 0)
           (clients (run [Create ":1.42"; Create ":1.43"] Demo.master))
  ∧ providers (client_destroyed 0 (run [Create ":1.42"; Create ":1.43"] Demo.master))
    = match filter (λ c, client_obj c ≠ 0)
                   (clients (run [Create ":1.42"; Create ":1.43"] Demo.master)) with
      | [] => []
      | _ :: _ => providers (run [Create ":1.42"; Create ":1.43"] Demo.master)
      end
  ∧ effects (client_destroyed 0 (run [Create ":1.42"; Create ":1.43"] Demo.master))
    = effects (run [Create ":1.42"; Create ":1.43"] Demo.master)
      ++ match filter (λ c, client_obj c ≠ 0)
                      (clients (run [Create ":1.42"; Create ":1.43"] Demo.master)) with
         | [] => map ProviderUnref
                     (providers (run [Create ":1.42"; Create ":1.43"] Demo.master))
         | _ :: _ => []
         end
  ∧ (providers (run [Destroy 1; Create ":1.44"; Notify (name_lost ":1.44")]
                  (client_destroyed 0
                     (run [Create ":1.42"; Create ":1.43"] Demo.master)))
     = providers (run [Create ":1.42"; Create ":1.43"] Demo.master)
     ∨ providers (run [Destroy 1; Create ":1.44"; Notify (name_lost ":1.44")]
                    (client_destroyed 0
                       (run [Create ":1.42"; Create ":1.43"] Demo.master))) = [])
  ∧ released (run [Destroy 1; Create ":1.44"; Notify (name_lost ":1.44")]
                (client_destroyed 0
                   (run [Create ":1.42"; Create ":1.43"] Demo.master)))
    = released (run [Create ":1.42"; Create ":1.43"] Demo.master)
      ++ match providers (run [Destroy 1; Create ":1.44"; Notify (name_lost ":1.44")]
                            (client_destroyed 0
                               (run [Create ":1.42"; Create ":1.43"] Demo.master))) with
         | [] => providers (run [Create ":1.42"; Create ":1.43"] Demo.master)
         | _ :: _ => []
         end.
Proof.
  apply (last_client_releases_once (run [Create ":1.42"; Create ":1.43"] Demo.master) 0
           [Destroy 1; Create ":1.44"; Notify (name_lost ":1.44")]).
  apply (bool_decide_unpack _). vm_compute. reflexivity.
Defined.

(** Two clients are tracked and one is finalised: nothing is released.
    Then the other is finalised: the three providers are released, once. *)
Example release_only_with_the_last_client :
  released (client_destroyed 0 (run [Create ":1.42"; Create ":1.43"] Demo.master)) = []
  ∧ map client_obj
      (clients (client_destroyed 0 (run [Create ":1.42"; Create ":1.43"] Demo.master)))
    = [1]
  ∧ map provider_name
      (released (run [Create ":1.42"; Create ":1.43"; Destroy 0; Destroy 1;
                      Create ":1.44"; Destroy 2] Demo.master))
    = ["/usr/share/geoclue-providers/manual.provider";
       "/usr/share/geoclue-providers/hostip.provider";
       "/usr/share/geoclue-providers/gpsd.provider"].
Proof. vm_compute. repeat split. Qed.

(** A callback that leaves clients behind releases nothing. *)
Lemma client_destroyed_keeps_registry old m :
  g_list_remove (clients m) old ≠ [] →
  providers (client_destroyed old m) = providers m
  ∧ effects (client_destroyed old m) = effects m.
Proof.
  intros Hne. rewrite client_destroyed_providers, client_destroyed_effects.
  destruct (g_list_remove (clients m) old); [congruence|].
  now rewrite app_nil_r.
Qed.

(** C7: the release that client_destroyed performs when the client list
    has become empty unreferences each provider once and empties the
    provider list; running the callback again straight away changes
    nothing at all: no provider is unreferenced a second time, nothing is
    logged, and the statics are the same. *)
Theorem release_all_idempotent (m : Master) (old old' : GObject) :
  g_list_remove (clients m) old = [] →
  providers (client_destroyed old m) = []
  ∧ effects (client_destroyed old m) = effects m ++ map ProviderUnref (providers m)
  ∧ client_destroyed old' (client_destroyed old m) = client_destroyed old m.
Proof.
  intros Hrm. repeat split.
  - now rewrite client_destroyed_providers, Hrm.
  - now rewrite client_destroyed_effects, Hrm.
  - apply client_destroyed_idle.
    + now rewrite client_destroyed_clients.
    + now rewrite client_destroyed_providers, Hrm.
Qed.

Lemma release_all_idempotent_witness :
  client_destroyed 7 (client_destroyed 0 (run [Create ":1.42"] Demo.master))
  = client_destroyed 0 (run [Create ":1.42"] Demo.master).
Proof.
  apply (release_all_idempotent (run [Create ":1.42"] Demo.master) 0 7).
  vm_compute. reflexivity.
Defined.

(** ** Provider selection *)

Lemma land_flags_subset (a b : Z) : Z.land a b = b ↔ flags_subset b a.
Proof.
  unfold flags_subset. split.
  - intros H i Hi Hb. rewrite <- H, Z.land_spec in Hb.
    now apply andb_true_iff in Hb as [Ha _].
  - intros H. apply Z.bits_inj'. intros i Hi. rewrite Z.land_spec.
    specialize (H i Hi). destruct (Z.testbit b i); [now rewrite H | apply andb_false_r].
Qed.

Lemma gc_master_provider_is_good_qualifies p iface_type min_accuracy can_update allowed :
  gc_master_provider_is_good p iface_type min_accuracy can_update allowed = true
  ↔ qualifies p iface_type min_accuracy can_update allowed.
Proof.
  unfold gc_master_provider_is_good, qualifies.
  rewrite (Z.land_comm (provider_resources p)).
  rewrite !andb_true_iff, !Z.eqb_eq, Z.leb_le, !land_flags_subset.
  assert (implb can_update (provider_can_update p) = true
          ↔ (can_update = true → provider_can_update p = true)) as ->.
  { destruct can_update, (provider_can_update p); simpl; intuition congruence. }
  tauto.
Qed.

Lemma get_providers_loop_filter l p iface_type min_accuracy can_update allowed :
  get_providers_loop l p iface_type min_accuracy can_update allowed
  = rev (List.filter
           (λ q, gc_master_provider_is_good q iface_type min_accuracy can_update allowed)
           l) ++ p.
Proof.
  revert p. induction l as [|q l IH]; intros p; simpl; [reflexivity|].
  rewrite IH.
  destruct (gc_master_provider_is_good q iface_type min_accuracy can_update allowed);
    simpl; [now rewrite <- app_assoc | reflexivity].
Qed.

(** C3: gc_master_get_providers returns the registered providers that meet
    the four predicates and only those, each as often as it is registered;
    the list is empty exactly when no registered provider qualifies (so
    also for an empty registry), and [*error] is never set. *)
Theorem gc_master_get_providers_exact (m : Master)
    (iface_type min_accuracy : Z) (can_update : bool) (allowed : Z)
    (error : option GError) :
  (∀ p, p ∈ (gc_master_get_providers iface_type min_accuracy can_update allowed error m).1
        ↔ p ∈ providers m ∧ qualifies p iface_type min_accuracy can_update allowed)
  ∧ Permutation
      (gc_master_get_providers iface_type min_accuracy can_update allowed error m).1
      (List.filter
         (λ p, gc_master_provider_is_good p iface_type min_accuracy can_update allowed)
         (providers m))
  ∧ ((gc_master_get_providers iface_type min_accuracy can_update allowed error m).1 = []
     ↔ ∀ p, p ∈ providers m →
            ¬ qualifies p iface_type min_accuracy can_update allowed)
  ∧ (gc_master_get_providers iface_type min_accuracy can_update allowed error m).2 = error.
Proof.
  set (good := λ p, gc_master_provider_is_good p iface_type min_accuracy can_update allowed).
  assert (Hret : (gc_master_get_providers iface_type min_accuracy can_update allowed error m).1
                 = rev (List.filter good (providers m))).
  { unfold gc_master_get_providers. destruct (providers m) as [|q l] eqn:Hps; [reflexivity|].
    cbn [fst]. now rewrite get_providers_loop_filter, app_nil_r. }
  assert (Hin : ∀ p, p ∈ rev (List.filter good (providers m))
                     ↔ p ∈ providers m ∧ qualifies p iface_type min_accuracy can_update allowed).
  { intros p. rewrite <- gc_master_provider_is_good_qualifies.
    rewrite !list_elem_of_In, <- in_rev, filter_In. reflexivity. }
  rewrite Hret. split; [exact Hin|]. split; [|split].
  - symmetry. apply Permutation_rev.
  - split.
    + intros Hnil p Hp Hq. specialize (proj2 (Hin p) (conj Hp Hq)).
      rewrite Hnil. apply not_elem_of_nil.
    + intros Hnone. destruct (rev (List.filter good (providers m))) as [|p l] eqn:Hl;
        [reflexivity|].
      destruct (proj1 (Hin p)) as [Hp Hq]; [left|]. now destruct (Hnone p Hp).
  - unfold gc_master_get_providers. now destruct (providers m).
Qed.

Example gc_master_get_providers_empty_registry :
  gc_master_get_providers 1 2 true 1 None statics0 = ([], None).
Proof. reflexivity. Qed.

Example gc_master_get_providers_no_match :
  gc_master_get_providers 4 2 true 1 None Demo.master = ([], None).
Proof. vm_compute. reflexivity. Qed.

Example gc_master_get_providers_match :
  map provider_name (gc_master_get_providers 1 2 true 1 None Demo.master).1
  = ["/usr/share/geoclue-providers/gpsd.provider";
     "/usr/share/geoclue-providers/hostip.provider";
     "/usr/share/geoclue-providers/manual.provider"].
Proof. vm_compute. reflexivity. Qed.

(** ** Peer disappearance *)

(** What the filter does once it has found the client of a vanished name. *)
Lemma name_owner_changed_filter_found message m name old_owner new_owner client :
  msg_is_name_owner_changed message = true →
  msg_args message = Some (name, old_owner, new_owner) →
  non_empty old_owner = true → non_empty new_owner = false →
  find_client_by_sender (clients m) name = Some client →
  ∃ m1,
    providers m1 = providers m ∧ clients m1 = clients m
    ∧ (is_Some (client_object_path client) → is_Some (master_connection m) →
       registered m1 = filter (λ r, r.2 ≠ client_obj client) (registered m))
    ∧ name_owner_changed_filter message m =
        (client_destroyed (client_obj client) m1, DBUS_HANDLER_RESULT_NOT_YET_HANDLED).
Proof.
  intros Hsig Hargs Hold Hnew Hfind.
  unfold name_owner_changed_filter.
  rewrite Hsig, Hargs, Hold, Hnew, Hfind. cbn [negb andb].
  unfold gc_master_client_get_object_path, g_object_unref.
  destruct (client_object_path client) as [path|];
    [change (master_connection (emit _ m)) with (master_connection m);
     destruct (master_connection m) as [conn|] eqn:Hconn|];
    (eexists; split; [|split; [|split; [|reflexivity]]]);
    unfold_setters; auto; try solve [intros _ [? [=]] | intros [? [=]]].
Qed.

Lemma name_owner_changed_filter_not_found message m name old_owner new_owner :
  msg_args message = Some (name, old_owner, new_owner) →
  find_client_by_sender (clients m) name = None →
  name_owner_changed_filter message m = (m, DBUS_HANDLER_RESULT_NOT_YET_HANDLED).
Proof.
  intros Hargs Hfind. unfold name_owner_changed_filter.
  rewrite Hargs, Hfind.
  destruct (msg_is_name_owner_changed message), (non_empty old_owner),
    (non_empty new_owner); reflexivity.
Qed.

Lemma non_empty_Some (s : string) : s ≠ "" → non_empty (Some s) = true.
Proof. destruct s; [congruence | reflexivity]. Qed.

(** C4, as stated, fails on the code when a peer holds two sessions: the
    filter looks up one client per notification, the first in the client
    list, and the peer's older session stays tracked and registered. *)
Lemma disconnect_leaves_older_session :
  {| client_obj := 0; client_sender := Some ":1.42";
     client_object_path := Some "/org/freedesktop/Geoclue/Master/client0" |}
    ∈ clients (run [Create ":1.42"; Create ":1.42"] Demo.master)
  ∧ ¬ session_destroyed
        {| client_obj := 0; client_sender := Some ":1.42";
           client_object_path := Some "/org/freedesktop/Geoclue/Master/client0" |}
        (name_owner_changed_filter (name_lost ":1.42")
           (run [Create ":1.42"; Create ":1.42"] Demo.master)).1.
Proof.
  split.
  - rewrite list_elem_of_In. vm_compute. tauto.
  - intros [Hnot _]. apply Hnot. rewrite list_elem_of_In. vm_compute. tauto.
Qed.

(** C4, amended: in a running master, the notification that name [sender]
    lost its owner destroys the session find_client_by_sender returns for
    [sender] (the first in the client list, the most recently created): it
    leaves the client list, which is otherwise unchanged, and no bus
    registration refers to it any more; if it was the only tracked
    session, the provider list becomes empty. *)
Theorem disconnect_destroys_found_session (m : Master) (sender : string)
    (c : GcMasterClient) :
  running m →
  sender ≠ "" →
  find_client_by_sender (clients m) sender = Some c →
  session_destroyed c (name_owner_changed_filter (name_lost sender) m).1
  ∧ clients (name_owner_changed_filter (name_lost sender) m).1
      = g_list_remove (clients m) (client_obj c)
  ∧ (clients m = [c] →
     providers (name_owner_changed_filter (name_lost sender) m).1 = []).
Proof.
  intros (Hconn & Hnd & Hall) Hne Hfind.
  destruct (find_client_by_sender_Some _ _ _ Hfind) as [Hin _].
  rewrite Forall_forall in Hall. destruct (Hall c Hin) as [_ Hpath].
  destruct (name_owner_changed_filter_found (name_lost sender) m sender
              (Some sender) (Some "") c)
    as (m1 & Hp & Hc & Hreg & ->);
    [reflexivity | reflexivity | now apply non_empty_Some | reflexivity | assumption|].
  cbn [fst]. specialize (Hreg Hpath Hconn).
  destruct (client_destroyed_rest m1 (client_obj c)) as (_ & _ & _ & Hr).
  rewrite client_destroyed_clients, client_destroyed_providers, Hc, Hp.
  unfold session_destroyed. rewrite client_destroyed_clients, Hr, Hreg, Hc.
  repeat split.
  - intros Hc'. apply (g_list_remove_gone (clients m) (client_obj c) Hnd).
    apply list_elem_of_fmap. now exists c.
  - intros r Hr'. now apply list_elem_of_filter in Hr' as [? _].
  - intros ->. simpl. now destruct (decide (client_obj c = client_obj c)).
Qed.

Lemma disconnect_destroys_found_session_witness :
  session_destroyed
    {| client_obj := 1; client_sender := Some ":1.42";
       client_object_path := Some "/org/freedesktop/Geoclue/Master/client1" |}
    (name_owner_changed_filter (name_lost ":1.42")
       (run [Create ":1.43"; Create ":1.42"] Demo.master)).1.
Proof.
  apply (disconnect_destroys_found_session
           (run [Create ":1.43"; Create ":1.42"] Demo.master) ":1.42").
  - unfold running. apply (bool_decide_unpack _). vm_compute. reflexivity.
  - discriminate.
  - vm_compute. reflexivity.
Defined.

(** C5, as stated, fails on the code when the vanished peer held two
    sessions: the first delivery destroys the newer one, the lookup of the
    second delivery finds the older one, and the second delivery destroys
    it. *)
Lemma repeated_notification_destroys_again :
  find_client_by_sender
    (clients (run [Create ":1.42"; Create ":1.42"; Notify (name_lost ":1.42")]
                Demo.master)) ":1.42" ≠ None
  ∧ (name_owner_changed_filter (name_lost ":1.42")
       (run [Create ":1.42"; Create ":1.42"; Notify (name_lost ":1.42")]
          Demo.master)).1
    ≠ run [Create ":1.42"; Create ":1.42"; Notify (name_lost ":1.42")] Demo.master.
Proof.
  split.
  - vm_compute. discriminate.
  - intros H. apply (f_equal clients) in H. vm_compute in H. discriminate.
Qed.

(** C5, amended: in a running master where at most one tracked session
    has sender [name], after one delivery of a disappearance notification
    for [name] the lookup of [name] finds nothing, and delivering the same
    notification again leaves every part of the master (clients,
    providers, registrations, log) as it is. *)
Theorem repeated_notification_is_noop (m : Master) (name : string)
    (old_owner new_owner : option string) :
  running m →
  one_session_of name m →
  non_empty old_owner = true →
  non_empty new_owner = false →
  find_client_by_sender
    (clients (name_owner_changed_filter
                {| msg_is_name_owner_changed := true;
                   msg_args := Some (name, old_owner, new_owner) |} m).1) name
  = None
  ∧ name_owner_changed_filter
      {| msg_is_name_owner_changed := true;
         msg_args := Some (name, old_owner, new_owner) |}
      (name_owner_changed_filter
         {| msg_is_name_owner_changed := true;
            msg_args := Some (name, old_owner, new_owner) |} m).1
    = ((name_owner_changed_filter
          {| msg_is_name_owner_changed := true;
             msg_args := Some (name, old_owner, new_owner) |} m).1,
       DBUS_HANDLER_RESULT_NOT_YET_HANDLED).
Proof.
  intros (_ & Hnd & _) Hone Hold Hnew.
  set (message := {| msg_is_name_owner_changed := true;
                     msg_args := Some (name, old_owner, new_owner) |}).
  assert (Hgone : find_client_by_sender
                    (clients (name_owner_changed_filter message m).1) name = None).
  { destruct (find_client_by_sender (clients m) name) as [c|] eqn:Hfind.
    - destruct (name_owner_changed_filter_found message m name old_owner new_owner c)
        as (m1 & _ & Hc & _ & ->); try reflexivity; try assumption.
      cbn [fst]. rewrite client_destroyed_clients, Hc.
      destruct (find_client_by_sender_Some _ _ _ Hfind) as [Hin Hs].
      apply find_client_by_sender_None. intros c' Hc' Hs'.
      assert (c' = c) as ->.
      { apply Hone; auto. now apply g_list_remove_elem in Hc'. }
      apply (g_list_remove_gone (clients m) (client_obj c) Hnd).
      apply list_elem_of_fmap. now exists c.
    - rewrite (name_owner_changed_filter_not_found message m name old_owner new_owner);
        [assumption | reflexivity | assumption]. }
  split; [exact Hgone|].
  now apply (name_owner_changed_filter_not_found message _ name old_owner new_owner).
Qed.

Lemma repeated_notification_is_noop_witness :
  name_owner_changed_filter (name_lost ":1.42")
    (name_owner_changed_filter (name_lost ":1.42")
       (run [Create ":1.42"; Create ":1.43"] Demo.master)).1
  = ((name_owner_changed_filter (name_lost ":1.42")
        (run [Create ":1.42"; Create ":1.43"] Demo.master)).1,
     DBUS_HANDLER_RESULT_NOT_YET_HANDLED).
Proof.
  apply (repeated_notification_is_noop
           (run [Create ":1.42"; Create ":1.43"] Demo.master)
           ":1.42" (Some ":1.42") (Some "")).
  - unfold running. apply (bool_decide_unpack _). vm_compute. reflexivity.
  - intros c c' Hc Hc' Hs Hs'. rewrite list_elem_of_In in Hc, Hc'.
    vm_compute in Hc, Hc'.
    destruct Hc as [<-|[<-|[]]], Hc' as [<-|[<-|[]]];
      reflexivity || discriminate.
  - reflexivity.
  - reflexivity.
Defined.

(** C6: a notification whose old owner is empty, or whose new owner is not
    empty, changes nothing: the filter returns the master it was given. *)
Theorem irrelevant_notification_ignored (m : Master) (message : DBusMessage)
    (name : string) (old_owner new_owner : option string) :
  msg_args message = Some (name, old_owner, new_owner) →
  non_empty old_owner = false ∨ non_empty new_owner = true →
  name_owner_changed_filter message m = (m, DBUS_HANDLER_RESULT_NOT_YET_HANDLED).
Proof.
  intros Hargs Hshape. unfold name_owner_changed_filter. rewrite Hargs.
  destruct (msg_is_name_owner_changed message); [|reflexivity].
  destruct Hshape as [-> | ->]; [reflexivity|].
  now rewrite andb_false_r.
Qed.

Lemma irrelevant_notification_ignored_witness :
  name_owner_changed_filter
    {| msg_is_name_owner_changed := true;
       msg_args := Some (":1.42", Some ":1.42", Some ":1.50") |}
    (run [Create ":1.42"] Demo.master)
  = (run [Create ":1.42"] Demo.master, DBUS_HANDLER_RESULT_NOT_YET_HANDLED).
Proof.
  apply (irrelevant_notification_ignored _ _ ":1.42" (Some ":1.42") (Some ":1.50")).
  - reflexivity.
  - right. reflexivity.
Defined.

(** ** Loading *)

Section LoadingSpec.

Variable GEOCLUE_PROVIDERS_DIR : string.
Variable gc_master_provider_new : string → option GcMasterProvider.
Variable g_build_filename : string → string → string.

Lemma load_providers_loop_spec filenames m :
  providers (load_providers_loop GEOCLUE_PROVIDERS_DIR gc_master_provider_new
               g_build_filename filenames m)
  = rev (omap (loaded_from GEOCLUE_PROVIDERS_DIR gc_master_provider_new
                 g_build_filename) filenames) ++ providers m
  ∧ effects (load_providers_loop GEOCLUE_PROVIDERS_DIR gc_master_provider_new
               g_build_filename filenames m)
  = effects m ++ flat_map (file_log GEOCLUE_PROVIDERS_DIR gc_master_provider_new
                             g_build_filename) filenames.
Proof.
  revert m. induction filenames as [|f fs IH]; intros m.
  - simpl. now rewrite app_nil_r.
  - cbn [load_providers_loop omap list_omap flat_map].
    unfold loaded_from, file_log, has_provider_extension.
    destruct (strrchr f ".") as [ext|] eqn:Hext.
    + destruct (decide (ext = PROVIDER_EXTENSION)) as [->|Hne].
      * rewrite bool_decide_eq_true_2 by reflexivity.
        unfold gc_master_add_new_provider.
        destruct (gc_master_provider_new _) as [provider|];
          match goal with |- context [load_providers_loop _ _ _ fs ?m'] =>
            destruct (IH m') as [-> ->] end; unfold_setters; simpl;
          rewrite <- ?app_assoc; auto.
      * rewrite bool_decide_eq_false_2 by congruence.
        match goal with |- context [load_providers_loop _ _ _ fs ?m'] =>
          destruct (IH m') as [-> ->] end; unfold_setters; simpl;
          rewrite <- ?app_assoc; auto.
    + rewrite bool_decide_eq_false_2 by congruence.
      match goal with |- context [load_providers_loop _ _ _ fs ?m'] =>
        destruct (IH m') as [-> ->] end; unfold_setters; simpl;
        rewrite <- ?app_assoc; auto.
Qed.

Lemma warnings_app es1 es2 : warnings (es1 ++ es2) = warnings es1 ++ warnings es2.
Proof. apply List.filter_app. Qed.

Lemma warnings_file_log filenames :
  warnings (flat_map (file_log GEOCLUE_PROVIDERS_DIR gc_master_provider_new
                        g_build_filename) filenames)
  = map (λ f, GWarning "Loading from %s failed"
                [AStr (g_build_filename GEOCLUE_PROVIDERS_DIR f)])
        (List.filter (load_fails GEOCLUE_PROVIDERS_DIR gc_master_provider_new
                        g_build_filename) filenames).
Proof.
  induction filenames as [|f fs IH]; [reflexivity|].
  cbn [flat_map List.filter]. rewrite warnings_app, IH.
  unfold file_log, load_fails.
  destruct (has_provider_extension f); cbn [andb]; [|reflexivity].
  destruct (gc_master_provider_new _) as [provider|].
  - rewrite bool_decide_eq_false_2 by discriminate. reflexivity.
  - rewrite bool_decide_eq_true_2 by reflexivity. reflexivity.
Qed.

End LoadingSpec.

(** C8: a scan walks every entry of the directory. An entry without the
    .provider extension is logged as ignored; an entry with it whose
    provider cannot be constructed adds one warning and no provider; every
    other entry adds its provider. So the provider list grows by the
    providers that initialised, the latest first, and by nothing else; the
    log holds one block per entry, whatever happened to the entries before
    it; and the warnings added are one per keyfile that failed to load. *)
Theorem gc_master_load_providers_skips_failures
    (GEOCLUE_PROVIDERS_DIR : string)
    (gc_master_provider_new : string → option GcMasterProvider)
    (g_build_filename : string → string → string)
    (filenames : list string) (m : Master) :
  providers (gc_master_load_providers GEOCLUE_PROVIDERS_DIR gc_master_provider_new
               g_build_filename (inr filenames) m)
  = rev (omap (loaded_from GEOCLUE_PROVIDERS_DIR gc_master_provider_new
                 g_build_filename) filenames) ++ providers m
  ∧ (∀ p, p ∈ providers (gc_master_load_providers GEOCLUE_PROVIDERS_DIR
                           gc_master_provider_new g_build_filename (inr filenames) m)
          ↔ p ∈ providers m
            ∨ ∃ f, f ∈ filenames
                   ∧ strrchr f "."%char = Some PROVIDER_EXTENSION
                   ∧ gc_master_provider_new (g_build_filename GEOCLUE_PROVIDERS_DIR f)
                     = Some p)
  ∧ effects (gc_master_load_providers GEOCLUE_PROVIDERS_DIR gc_master_provider_new
               g_build_filename (inr filenames) m)
    = effects m ++ scan_header filenames
        :: flat_map (file_log GEOCLUE_PROVIDERS_DIR gc_master_provider_new
                       g_build_filename) filenames
  ∧ warnings (effects (gc_master_load_providers GEOCLUE_PROVIDERS_DIR
                         gc_master_provider_new g_build_filename (inr filenames) m))
    = warnings (effects m)
      ++ map (λ f, GWarning "Loading from %s failed"
                     [AStr (g_build_filename GEOCLUE_PROVIDERS_DIR f)])
             (List.filter (load_fails GEOCLUE_PROVIDERS_DIR gc_master_provider_new
                             g_build_filename) filenames).
Proof.
  assert (Hload :
    providers (gc_master_load_providers GEOCLUE_PROVIDERS_DIR gc_master_provider_new
                 g_build_filename (inr filenames) m)
    = rev (omap (loaded_from GEOCLUE_PROVIDERS_DIR gc_master_provider_new
                   g_build_filename) filenames) ++ providers m
    ∧ effects (gc_master_load_providers GEOCLUE_PROVIDERS_DIR gc_master_provider_new
                 g_build_filename (inr filenames) m)
      = effects m ++ scan_header filenames
          :: flat_map (file_log GEOCLUE_PROVIDERS_DIR gc_master_provider_new
                         g_build_filename) filenames).
  { unfold gc_master_load_providers.
    destruct (load_providers_loop_spec GEOCLUE_PROVIDERS_DIR gc_master_provider_new
                g_build_filename filenames
                (match filenames with
                 | [] => emit [GPrint "No providers found in %s\n" [AOther]] m
                 | _ :: _ => emit [GPrint "Found providers:\n" []] m
                 end)) as [-> ->].
    destruct filenames; unfold_setters; simpl; rewrite <- ?app_assoc; auto. }
  destruct Hload as [Hp He]. rewrite Hp, He.
  split; [reflexivity|]. split; [|split; [reflexivity|]].
  - intros p.
    rewrite elem_of_app, (list_elem_of_In (rev _)), <- in_rev, <- list_elem_of_In,
      list_elem_of_omap.
    unfold loaded_from, has_provider_extension. split.
    + intros [(f & Hf & Hnew)|Hin]; [right | now left].
      exists f. destruct (bool_decide_reflect
                            (strrchr f "."%char = Some PROVIDER_EXTENSION));
        [auto | discriminate].
    + intros [Hin|(f & Hf & Hext & Hnew)]; [now right | left].
      exists f. now rewrite bool_decide_eq_true_2.
  - rewrite warnings_app. f_equal.
    change (scan_header filenames :: ?l) with ([scan_header filenames] ++ l).
    rewrite warnings_app, warnings_file_log.
    now destruct filenames.
Qed.

(** Three keyfiles that load, one that does not, and a file that is no
    keyfile: three providers and one warning. *)
Example load_three_of_four :
  map provider_name (providers Demo.master)
  = ["/usr/share/geoclue-providers/manual.provider";
     "/usr/share/geoclue-providers/hostip.provider";
     "/usr/share/geoclue-providers/gpsd.provider"]
  ∧ warnings (effects Demo.master)
  = [GWarning "Loading from %s failed"
       [AStr "/usr/share/geoclue-providers/broken.provider"]].
Proof. vm_compute. split; reflexivity. Qed.

(** ** Session handles *)

(** [%d] prints the values of a guint32 injectively: the upper half comes
    out negative. *)
Lemma printf_d_inj (a b : Z) :
  (0 ≤ a < 2 ^ 32)%Z → (0 ≤ b < 2 ^ 32)%Z → printf_d a = printf_d b → a = b.
Proof.
  unfold printf_d. intros Ha Hb Heq. apply (inj pretty) in Heq.
  destruct (decide (a < 2 ^ 31)%Z), (decide (b < 2 ^ 31)%Z); lia.
Qed.

Lemma step_serial op m :
  serial (step op m) =
  match op with
  | Create _ => ((serial m + 1) mod 2 ^ 32)%Z
  | _ => serial m
  end.
Proof.
  destruct op as [sender|old|message]; cbn [step].
  - now destruct (create_fields m sender) as (_ & _ & _ & _ & -> & _).
  - now destruct (client_destroyed_rest m old) as (_ & -> & _).
  - destruct (name_owner_changed_filter_cases message m)
      as [->|(name & old & new & client & m1 & _ & _ & _ & _ & _ & _ & _ & _
               & Hs & _ & _ & _ & _ & ->)]; [reflexivity|].
    cbn [fst]. now destruct (client_destroyed_rest m1 (client_obj client)) as (_ & -> & _).
Qed.

(** While the counter does not wrap, the paths a run returns are the
    prefix followed by the successive counter values. *)
Lemma handles_seqZ ops m :
  (0 ≤ serial m)%Z → (serial m + Z.of_nat (creations ops) ≤ 2 ^ 32)%Z →
  handles ops m
  = map (λ v, GEOCLUE_MASTER_PATH +:+ printf_d v)
        (seqZ (serial m) (Z.of_nat (creations ops))).
Proof.
  revert m. induction ops as [|op ops IH]; intros m Hlo Hhi; [reflexivity|].
  cbn [handles]. pose proof (step_serial op m) as Hs.
  destruct op as [sender|old|message].
  - change (creations (Create sender :: ops)) with (S (creations ops)) in *.
    rewrite seqZ_cons by lia. cbn [map app].
    destruct (create_fields m sender) as (-> & _). f_equal.
    replace (Z.pred (Z.of_nat (S (creations ops)))) with (Z.of_nat (creations ops)) by lia.
    destruct (creations ops) as [|n] eqn:Hn.
    + rewrite IH; rewrite ?Hn, ?Hs; [reflexivity| |];
        pose proof (Z.mod_pos_bound (serial m + 1) (2 ^ 32)); lia.
    + assert (serial (step (Create sender) m) = Z.succ (serial m)) as Hs'.
      { rewrite Hs. apply Z.mod_small. lia. }
      rewrite IH; rewrite ?Hn, ?Hs'; [reflexivity | lia | lia].
  - change (creations (Destroy old :: ops)) with (creations ops) in *.
    cbn [app]. rewrite IH; rewrite Hs; auto.
  - change (creations (Notify message :: ops)) with (creations ops) in *.
    cbn [app]. rewrite IH; rewrite Hs; auto.
Qed.

Lemma handles_NoDup ops m :
  (0 ≤ serial m)%Z → (serial m + Z.of_nat (creations ops) ≤ 2 ^ 32)%Z →
  NoDup (handles ops m).
Proof.
  intros Hlo Hhi. rewrite handles_seqZ by assumption.
  apply NoDup_fmap_2_strong; [|apply NoDup_seqZ].
  intros a b Ha%elem_of_seqZ Hb%elem_of_seqZ Heq.
  apply (inj (String.app GEOCLUE_MASTER_PATH)) in Heq.
  apply printf_d_inj; [lia | lia | assumption].
Qed.

Lemma creations_Create senders : creations (map Create senders) = length senders.
Proof.
  unfold creations. induction senders as [|s l IH]; simpl; [reflexivity|].
  now rewrite IH.
Qed.

(** C9: as long as the counter does not wrap, consecutive Create calls
    return the path prefix followed by the successive values of [serial],
    and these paths are pairwise distinct. *)
Theorem consecutive_handles_distinct (m : Master) (senders : list string) :
  (0 ≤ serial m)%Z →
  (serial m + Z.of_nat (length senders) ≤ 2 ^ 32)%Z →
  handles (map Create senders) m
  = map (λ v, GEOCLUE_MASTER_PATH +:+ printf_d v)
        (seqZ (serial m) (Z.of_nat (length senders)))
  ∧ NoDup (handles (map Create senders) m).
Proof.
  intros Hlo Hhi. rewrite <- creations_Create in *. split.
  - now apply handles_seqZ.
  - now apply handles_NoDup.
Qed.

Lemma consecutive_handles_distinct_witness :
  NoDup (handles (map Create [":1.42"; ":1.43"; ":1.42"]) Demo.master).
Proof.
  apply (consecutive_handles_distinct Demo.master [":1.42"; ":1.43"; ":1.42"]).
  - vm_compute. discriminate.
  - vm_compute. discriminate.
Defined.

(** The counter value 2^31 is printed as a negative number. *)
Example printf_d_upper_half :
  printf_d (2 ^ 31) = "-2147483648" ∧ printf_d (2 ^ 31 - 1) = "2147483647".
Proof. vm_compute. split; reflexivity. Qed.

(** ** After the teardown *)

Lemma creations_app ops1 ops2 :
  creations (ops1 ++ ops2) = creations ops1 + creations ops2.
Proof. unfold creations. now rewrite List.filter_app, length_app. Qed.

(** C10: once the callback for the last client has emptied the provider
    list, it stays empty through every later run of Create calls, client
    finalisations and bus messages; provider selection then returns the
    empty list whatever is asked; a further Create call still returns the
    next path and tracks its client, with the provider list still empty;
    and while the counter does not wrap, the paths returned since the
    teardown, that one included, are pairwise distinct. *)
Theorem emptied_registry_stays_empty (m0 : Master) (c : GcMasterClient)
    (ops : list Op) (sender : string)
    (iface_type min_accuracy : Z) (can_update : bool) (allowed : Z)
    (error : option GError) :
  clients m0 = [c] →
  providers (run ops (client_destroyed (client_obj c) m0)) = []
  ∧ gc_master_get_providers iface_type min_accuracy can_update allowed error
      (run ops (client_destroyed (client_obj c) m0)) = ([], error)
  ∧ (gc_iface_master_create sender (run ops (client_destroyed (client_obj c) m0))).2
    = GEOCLUE_MASTER_PATH
      +:+ printf_d (serial (run ops (client_destroyed (client_obj c) m0)))
  ∧ clients (gc_iface_master_create sender
               (run ops (client_destroyed (client_obj c) m0))).1
    = {| client_obj := next_object (run ops (client_destroyed (client_obj c) m0));
         client_sender := Some sender;
         client_object_path :=
           Some (gc_iface_master_create sender
                   (run ops (client_destroyed (client_obj c) m0))).2 |}
      :: clients (run ops (client_destroyed (client_obj c) m0))
  ∧ providers (gc_iface_master_create sender
                 (run ops (client_destroyed (client_obj c) m0))).1 = []
  ∧ ((0 ≤ serial m0)%Z →
     (serial m0 + Z.of_nat (creations ops) + 1 ≤ 2 ^ 32)%Z →
     NoDup (handles (ops ++ [Create sender]) (client_destroyed (client_obj c) m0))).
Proof.
  intros Hc.
  destruct (only_client_empties_registry m0 c Hc) as [Hp Hs].
  destruct (run_empty_registry ops _ Hp) as [Hrun _].
  destruct (create_fields (run ops (client_destroyed (client_obj c) m0)) sender)
    as (Hpath & Hprov & Hcl & _).
  split; [|split; [|split; [|split; [|split]]]].
  - exact Hrun.
  - unfold gc_master_get_providers. now rewrite Hrun.
  - exact Hpath.
  - exact Hcl.
  - now rewrite Hprov.
  - intros Hlo Hhi. apply handles_NoDup; rewrite Hs; [assumption|].
    rewrite creations_app. change (creations [Create sender]) with 1. lia.
Qed.

Lemma emptied_registry_stays_empty_witness :
  providers (run [Create ":1.43"; Notify (name_lost ":1.43"); Create ":1.44"]
               (client_destroyed 0 (run [Create ":1.42"] Demo.master))) = [].
Proof.
  apply (emptied_registry_stays_empty (run [Create ":1.42"] Demo.master)
           {| client_obj := 0; client_sender := Some ":1.42";
              client_object_path := Some "/org/freedesktop/Geoclue/Master/client0" |}
           [Create ":1.43"; Notify (name_lost ":1.43"); Create ":1.44"]
           ":1.45" 1 2 true 1 None).
  vm_compute. reflexivity.
Defined.

(** * Further properties of master.c *)

(** ** Lookup by sender *)

Lemma find_client_by_sender_split l sender c :
  find_client_by_sender l sender = Some c →
  ∃ l1 l2, l = l1 ++ c :: l2 ∧ client_sender c = Some sender
           ∧ ∀ c', c' ∈ l1 → client_sender c' ≠ Some sender.
Proof.
  induction l as [|c0 l IH]; simpl; [discriminate|].
  unfold gc_master_client_get_sender.
  assert (Hskip : client_sender c0 ≠ Some sender →
                  find_client_by_sender l sender = Some c →
                  ∃ l1 l2, c0 :: l = l1 ++ c :: l2 ∧ client_sender c = Some sender
                           ∧ ∀ c', c' ∈ l1 → client_sender c' ≠ Some sender).
  { intros Hne Hfind. destruct (IH Hfind) as (l1 & l2 & -> & Hs & Hbefore).
    exists (c0 :: l1), l2. split; [reflexivity|]. split; [assumption|].
    intros c' [->|Hc']%elem_of_cons; auto. }
  destruct (client_sender c0) as [s|] eqn:Hs0.
  - destruct (decide (s = sender)) as [->|Hne].
    + intros [= <-]. exists [], l. split; [reflexivity|]. split; [assumption|].
      intros c' Hc'. inversion Hc'.
    + apply Hskip. congruence.
  - apply Hskip. discriminate.
Qed.

Lemma find_client_by_sender_app l1 l2 sender :
  (∀ c', c' ∈ l1 → client_sender c' ≠ Some sender) →
  find_client_by_sender (l1 ++ l2) sender = find_client_by_sender l2 sender.
Proof.
  induction l1 as [|c0 l1 IH]; intros Hbefore; simpl; [reflexivity|].
  unfold gc_master_client_get_sender.
  assert (Hc0 : client_sender c0 ≠ Some sender) by (apply Hbefore; left).
  assert (Hrest : find_client_by_sender (l1 ++ l2) sender
                  = find_client_by_sender l2 sender).
  { apply IH. intros c' Hc'. apply Hbefore. now right. }
  destruct (client_sender c0) as [s|]; [|assumption].
  destruct (decide (s = sender)) as [->|]; [congruence | assumption].
Qed.

Lemma find_client_by_sender_head c l sender :
  client_sender c = Some sender → find_client_by_sender (c :: l) sender = Some c.
Proof.
  intros Hs. simpl. unfold gc_master_client_get_sender. rewrite Hs.
  now destruct (decide (sender = sender)).
Qed.

(** find_client_by_sender returns a client exactly when that client is the
    first in the list whose stored sender equals the name looked up;
    clients without a sender are passed over. *)
Theorem find_client_by_sender_first_match (l : list GcMasterClient)
    (sender : string) (c : GcMasterClient) :
  find_client_by_sender l sender = Some c
  ↔ ∃ l1 l2, l = l1 ++ c :: l2 ∧ client_sender c = Some sender
             ∧ ∀ c', c' ∈ l1 → client_sender c' ≠ Some sender.
Proof.
  split; [apply find_client_by_sender_split|].
  intros (l1 & l2 & -> & Hs & Hbefore).
  rewrite find_client_by_sender_app by assumption.
  now apply find_client_by_sender_head.
Qed.

(** ** Creation and lookup *)

Lemma find_after_create sender m :
  find_client_by_sender (clients (gc_iface_master_create sender m).1) sender
  = Some {| client_obj := next_object m; client_sender := Some sender;
            client_object_path := Some (gc_iface_master_create sender m).2 |}.
Proof.
  destruct (create_fields m sender) as (_ & _ & -> & _).
  now apply find_client_by_sender_head.
Qed.

(** The client a Create call tracks is the one a lookup of the caller's
    name finds next, ahead of any older client of the same caller; lookups
    of other names are not affected. *)
Theorem create_then_find (sender other : string) (m : Master) :
  find_client_by_sender (clients (gc_iface_master_create sender m).1) sender
  = Some {| client_obj := next_object m; client_sender := Some sender;
            client_object_path := Some (gc_iface_master_create sender m).2 |}
  ∧ (other ≠ sender →
     find_client_by_sender (clients (gc_iface_master_create sender m).1) other
     = find_client_by_sender (clients m) other).
Proof.
  split; [apply find_after_create|].
  intros Hne. destruct (create_fields m sender) as (_ & _ & -> & _).
  simpl. unfold gc_master_client_get_sender. simpl.
  destruct (decide (sender = other)); [congruence | reflexivity].
Qed.

(** ** The filter *)

(** The master just before the filter drops its reference to the client
    it found. *)
Lemma name_owner_changed_filter_found_state message m name old_owner new_owner client :
  msg_is_name_owner_changed message = true →
  msg_args message = Some (name, old_owner, new_owner) →
  non_empty old_owner = true → non_empty new_owner = false →
  find_client_by_sender (clients m) name = Some client →
  ∃ m1,
    name_owner_changed_filter message m =
      (client_destroyed (client_obj client) m1, DBUS_HANDLER_RESULT_NOT_YET_HANDLED)
    ∧ providers m1 = providers m ∧ clients m1 = clients m
    ∧ master_connection m1 = master_connection m
    ∧ serial m1 = serial m ∧ next_object m1 = next_object m
    ∧ registered m1 =
        match client_object_path client, master_connection m with
        | Some _, Some _ => filter (λ r, r.2 ≠ client_obj client) (registered m)
        | _, _ => registered m
        end
    ∧ effects m1 =
        effects m
        ++ GPrint "Client %s disconnected, cleaning up\n" [AStr name]
           :: match client_object_path client, master_connection m with
              | Some _, None =>
                  [GWarning "Cannot unregister client %s: master_connection is NULL"
                     [AStr name]]
              | _, _ => []
              end.
Proof.
  intros Hsig Hargs Hold Hnew Hfind.
  unfold name_owner_changed_filter.
  rewrite Hsig, Hargs, Hold, Hnew, Hfind. cbn [negb andb].
  unfold gc_master_client_get_object_path, g_object_unref.
  change (master_connection (emit _ m)) with (master_connection m).
  destruct (client_object_path client) as [path|], (master_connection m) as [conn|] eqn:Hconn;
    (eexists; split; [reflexivity|]); unfold_setters;
    rewrite <- ?app_assoc; auto 10.
Qed.

Lemma g_list_remove_length (l : list GcMasterClient) data :
  (length l ≤ S (length (g_list_remove l data)))%nat.
Proof.
  induction l as [|c l IH]; simpl; [lia|].
  destruct (decide (client_obj c = data)); simpl; lia.
Qed.

(** A Create call followed by the notification that the caller's name lost
    its owner leaves the client list as it was before the call. The
    provider list survives only if another client was tracked, and the
    counter is not taken back. *)
Theorem create_then_disconnect (sender : string) (m : Master) :
  sender ≠ "" →
  clients (name_owner_changed_filter (name_lost sender)
             (gc_iface_master_create sender m).1).1 = clients m
  ∧ providers (name_owner_changed_filter (name_lost sender)
                 (gc_iface_master_create sender m).1).1
    = match clients m with [] => [] | _ :: _ => providers m end
  ∧ serial (name_owner_changed_filter (name_lost sender)
              (gc_iface_master_create sender m).1).1
    = ((serial m + 1) mod 2 ^ 32)%Z.
Proof.
  intros Hne.
  destruct (name_owner_changed_filter_found_state (name_lost sender)
              (gc_iface_master_create sender m).1 sender (Some sender) (Some "") _
              eq_refl eq_refl (non_empty_Some sender Hne) eq_refl
              (find_after_create sender m))
    as (m1 & -> & Hp & Hc & _ & Hs & _).
  cbn [fst client_obj].
  destruct (client_destroyed_rest m1 (next_object m)) as (_ & -> & _).
  rewrite client_destroyed_clients, client_destroyed_providers, Hc, Hp, Hs.
  destruct (create_fields m sender) as (_ & -> & -> & _ & -> & _).
  simpl. destruct (decide (next_object m = next_object m)); [|congruence].
  auto.
Qed.

Lemma create_then_disconnect_witness :
  clients (name_owner_changed_filter (name_lost ":1.50")
             (gc_iface_master_create ":1.50"
                (run [Create ":1.42"] Demo.master)).1).1
  = clients (run [Create ":1.42"] Demo.master).
Proof.
  apply (create_then_disconnect ":1.50" (run [Create ":1.42"] Demo.master)).
  discriminate.
Defined.

(** The filter passes over every message that is not a NameOwnerChanged
    signal, whose body is not three strings, or whose name is the sender
    of no tracked client: the master is returned as it was. *)
Theorem unrelated_message_ignored (message : DBusMessage) (m : Master) :
  msg_is_name_owner_changed message = false
  ∨ msg_args message = None
  ∨ (∃ name old_owner new_owner,
       msg_args message = Some (name, old_owner, new_owner)
       ∧ ∀ c, c ∈ clients m → client_sender c ≠ Some name) →
  name_owner_changed_filter message m = (m, DBUS_HANDLER_RESULT_NOT_YET_HANDLED).
Proof.
  intros [Hsig|[Hargs|(name & old_owner & new_owner & Hargs & Hnone)]].
  - unfold name_owner_changed_filter. now rewrite Hsig.
  - unfold name_owner_changed_filter. rewrite Hargs.
    now destruct (msg_is_name_owner_changed message).
  - apply (name_owner_changed_filter_not_found message m name old_owner new_owner Hargs).
    now apply find_client_by_sender_None.
Qed.

Lemma unrelated_message_ignored_witness :
  name_owner_changed_filter (name_lost ":1.99") (run [Create ":1.42"] Demo.master)
  = (run [Create ":1.42"] Demo.master, DBUS_HANDLER_RESULT_NOT_YET_HANDLED).
Proof.
  apply unrelated_message_ignored. right. right.
  exists ":1.99", (Some ":1.99"), (Some ""). split; [reflexivity|].
  intros c Hc. rewrite list_elem_of_In in Hc. vm_compute in Hc.
  destruct Hc as [<-|[]]. discriminate.
Defined.

(** Whatever the message, the filter reports it as not yet handled, leaves
    the counter, the allocator and the connection alone, tracks no client
    that was not tracked before, and drops at most one client. *)
Theorem filter_drops_at_most_one (message : DBusMessage) (m : Master) :
  (name_owner_changed_filter message m).2 = DBUS_HANDLER_RESULT_NOT_YET_HANDLED
  ∧ serial (name_owner_changed_filter message m).1 = serial m
  ∧ next_object (name_owner_changed_filter message m).1 = next_object m
  ∧ master_connection (name_owner_changed_filter message m).1 = master_connection m
  ∧ (∀ c, c ∈ clients (name_owner_changed_filter message m).1 → c ∈ clients m)
  ∧ (length (clients m)
     ≤ S (length (clients (name_owner_changed_filter message m).1)))%nat.
Proof.
  destruct (name_owner_changed_filter_cases message m)
    as [->|(name & old & new & client & m1 & _ & _ & _ & _ & _ & _ & Hc & Hconn
             & Hs & Hn & _ & _ & _ & ->)].
  - cbn [fst snd]. repeat split; auto.
  - cbn [fst snd].
    destruct (client_destroyed_rest m1 (client_obj client)) as (-> & -> & -> & _).
    rewrite client_destroyed_clients, Hc.
    split; [reflexivity|]. split; [assumption|]. split; [assumption|].
    split; [assumption|]. split.
    + intros c. apply g_list_remove_elem.
    + apply g_list_remove_length.
Qed.

(** Without a bus connection the filter cannot unregister the client it
    found: it logs a warning instead, and still drops the client; the
    registrations are left as they are. *)
Theorem disconnect_without_connection (m : Master) (sender path : string)
    (c : GcMasterClient) :
  master_connection m = None →
  sender ≠ "" →
  find_client_by_sender (clients m) sender = Some c →
  client_object_path c = Some path →
  clients (name_owner_changed_filter (name_lost sender) m).1
  = g_list_remove (clients m) (client_obj c)
  ∧ registered (name_owner_changed_filter (name_lost sender) m).1 = registered m
  ∧ effects (name_owner_changed_filter (name_lost sender) m).1
    = effects m
      ++ [GPrint "Client %s disconnected, cleaning up\n" [AStr sender];
          GWarning "Cannot unregister client %s: master_connection is NULL"
            [AStr sender]]
      ++ match g_list_remove (clients m) (client_obj c) with
         | [] => map ProviderUnref (providers m)
         | _ :: _ => []
         end.
Proof.
  intros Hconn Hne Hfind Hpath.
  destruct (name_owner_changed_filter_found_state (name_lost sender) m sender
              (Some sender) (Some "") c eq_refl eq_refl
              (non_empty_Some sender Hne) eq_refl Hfind)
    as (m1 & -> & Hp & Hc & _ & _ & _ & Hr & He).
  cbn [fst]. rewrite Hpath, Hconn in Hr, He.
  destruct (client_destroyed_rest m1 (client_obj c)) as (_ & _ & _ & ->).
  rewrite client_destroyed_clients, client_destroyed_effects, Hc, Hp, Hr, He.
  rewrite <- app_assoc. auto.
Qed.

Lemma disconnect_without_connection_witness :
  registered (name_owner_changed_filter (name_lost ":1.42")
                (run [Create ":1.42"] statics0)).1
  = registered (run [Create ":1.42"] statics0).
Proof.
  apply (disconnect_without_connection (run [Create ":1.42"] statics0) ":1.42"
           "/org/freedesktop/Geoclue/Master/client0"
           {| client_obj := 0; client_sender := Some ":1.42";
              client_object_path := Some "/org/freedesktop/Geoclue/Master/client0" |}).
  - reflexivity.
  - discriminate.
  - vm_compute. reflexivity.
  - reflexivity.
Defined.

(** ** Invariants of the reachable states *)

Section InitFacts.

Variable GEOCLUE_PROVIDERS_DIR : string.
Variable gc_master_provider_new : string → option GcMasterProvider.
Variable g_build_filename : string → string → string.

(** gc_master_init leaves the clients, the counter, the allocator and the
    registrations alone. *)
Lemma gc_master_init_rest bus dir m :
  clients (gc_master_init GEOCLUE_PROVIDERS_DIR gc_master_provider_new
             g_build_filename bus dir m) = clients m
  ∧ serial (gc_master_init GEOCLUE_PROVIDERS_DIR gc_master_provider_new
              g_build_filename bus dir m) = serial m
  ∧ next_object (gc_master_init GEOCLUE_PROVIDERS_DIR gc_master_provider_new
                   g_build_filename bus dir m) = next_object m
  ∧ registered (gc_master_init GEOCLUE_PROVIDERS_DIR gc_master_provider_new
                  g_build_filename bus dir m) = registered m.
Proof.
  unfold gc_master_init, gc_master_load_providers.
  destruct bus as [message|connection]; [unfold_setters; auto|].
  destruct dir as [message|filenames]; [unfold_setters; auto|].
  match goal with |- context [load_providers_loop _ _ _ filenames ?m'] =>
    destruct (load_providers_loop_rest GEOCLUE_PROVIDERS_DIR gc_master_provider_new
                g_build_filename filenames m') as (-> & _ & -> & -> & ->) end.
  destruct filenames; unfold_setters; auto.
Qed.

End InitFacts.

Lemma session_shaped_step op m :
  Forall session_shaped (clients m) ∧ (0 ≤ serial m < 2 ^ 32)%Z →
  Forall session_shaped (clients (step op m))
  ∧ (0 ≤ serial (step op m) < 2 ^ 32)%Z.
Proof.
  intros [Hall Hser]. rewrite step_serial.
  assert (Hcd : ∀ old m1, clients m1 = clients m →
                Forall session_shaped (clients (client_destroyed old m1))).
  { intros old m1 Hc. rewrite client_destroyed_clients, Hc.
    rewrite Forall_forall in *. intros c Hin. apply Hall.
    now apply g_list_remove_elem in Hin. }
  destruct op as [sender|old|message]; cbn [step].
  - split; [|apply Z.mod_pos_bound; lia].
    destruct (create_fields m sender) as (Hpath & _ & -> & _).
    apply Forall_cons. split; [|assumption].
    split; [eexists; reflexivity|].
    exists (serial m). split; [assumption|].
    cbn [client_object_path]. now rewrite Hpath.
  - split; [now apply Hcd | assumption].
  - split; [|assumption].
    destruct (name_owner_changed_filter_cases message m)
      as [->|(name & old & new & client & m1 & _ & _ & _ & _ & _ & _ & Hc & _
               & _ & _ & _ & _ & _ & ->)]; [assumption|].
    cbn [fst]. now apply Hcd.
Qed.

(** In every state a master reaches after gc_master_init obtained the bus
    connection, whatever Create calls, finalisations and messages
    followed, the connection is set, the tracked clients are pairwise
    distinct objects below the allocator, each has a sender and a path made
    of the prefix and a printed counter value, and the counter is a
    guint32. *)
Theorem reachable_state_invariant
    (GEOCLUE_PROVIDERS_DIR : string)
    (gc_master_provider_new : string → option GcMasterProvider)
    (g_build_filename : string → string → string)
    (connection : DBusGConnection) (dir : string + list string) (ops : list Op) :
  running (run ops (gc_master_init GEOCLUE_PROVIDERS_DIR gc_master_provider_new
                      g_build_filename (inr connection) dir statics0))
  ∧ Forall session_shaped
      (clients (run ops (gc_master_init GEOCLUE_PROVIDERS_DIR gc_master_provider_new
                           g_build_filename (inr connection) dir statics0)))
  ∧ (0 ≤ serial (run ops (gc_master_init GEOCLUE_PROVIDERS_DIR gc_master_provider_new
                            g_build_filename (inr connection) dir statics0))
     < 2 ^ 32)%Z.
Proof.
  pose proof (running_init GEOCLUE_PROVIDERS_DIR gc_master_provider_new
                g_build_filename connection dir) as [Hrun Hcl].
  destruct (gc_master_init_rest GEOCLUE_PROVIDERS_DIR gc_master_provider_new
              g_build_filename (inr connection) dir statics0) as (_ & Hser & _).
  split; [now apply running_run|].
  assert (Hshape : Forall session_shaped
            (clients (gc_master_init GEOCLUE_PROVIDERS_DIR gc_master_provider_new
                        g_build_filename (inr connection) dir statics0))
          ∧ (0 ≤ serial (gc_master_init GEOCLUE_PROVIDERS_DIR gc_master_provider_new
                           g_build_filename (inr connection) dir statics0)
             < 2 ^ 32)%Z).
  { rewrite Hcl, Hser. split; [constructor | simpl; lia]. }
  revert Hshape. generalize (gc_master_init GEOCLUE_PROVIDERS_DIR gc_master_provider_new
                               g_build_filename (inr connection) dir statics0).
  induction ops as [|op ops IH]; intros m Hshape; [exact Hshape|].
  simpl. apply IH. now apply session_shaped_step.
Qed.

(** With distinct objects in the list, unregistering an object and
    removing it from the client list keep registrations and clients in
    step. *)
Lemma mirrors_remove (reg : list (string * GObject)) (l : list GcMasterClient) data :
  map (λ r : string * GObject, (Some r.1, r.2)) reg
  = map (λ c, (client_object_path c, client_obj c)) l →
  NoDup (map client_obj l) →
  map (λ r : string * GObject, (Some r.1, r.2)) (filter (λ r, r.2 ≠ data) reg)
  = map (λ c, (client_object_path c, client_obj c)) (g_list_remove l data).
Proof.
  revert reg. induction l as [|c l IH]; intros [|r reg] Heq Hnd; try discriminate.
  - reflexivity.
  - simpl in Heq. injection Heq as Hpath Hobj Hrest.
    apply NoDup_cons in Hnd as [Hc Hnd]. simpl.
    destruct (decide (client_obj c = data)) as [Hd|Hd].
    + rewrite filter_cons_False by (simpl; intros Hne; apply Hne; congruence).
      subst data. clear IH Hpath.
      revert reg Hrest Hc. clear Hnd. induction l as [|c' l IH];
        intros [|r' reg] Hrest Hc; try discriminate; [reflexivity|].
      simpl in Hrest. injection Hrest as Hpath' Hobj' Hrest.
      apply not_elem_of_cons in Hc as [Hne Hc].
      rewrite filter_cons_True by (simpl; congruence).
      simpl. rewrite Hpath', Hobj'. f_equal. now apply IH.
    + rewrite filter_cons_True by (simpl; congruence).
      simpl. rewrite Hpath, Hobj. f_equal. now apply IH.
Qed.

Lemma mirrors_step op m :
  bus_op op = true → running m ∧ mirrors m → mirrors (step op m).
Proof.
  intros Hop [(Hconn & Hnd & Hall) Hmir]. unfold mirrors in *.
  destruct op as [sender|old|message]; [| discriminate |]; cbn [step].
  - unfold gc_iface_master_create. destruct Hconn as [conn Hconn].
    unfold_setters. rewrite Hconn. unfold_setters. simpl. now rewrite Hmir.
  - destruct (name_owner_changed_filter_cases message m)
      as [->|(name & old & new & client & m1 & _ & _ & _ & _ & Hfind & _ & Hc & _
               & _ & _ & _ & _ & Hreg & ->)]; [assumption|].
    cbn [fst].
    destruct (client_destroyed_rest m1 (client_obj client)) as (_ & _ & _ & ->).
    rewrite client_destroyed_clients, Hc.
    destruct (find_client_by_sender_Some _ _ _ Hfind) as [Hin _].
    rewrite Forall_forall in Hall. destruct (Hall client Hin) as [_ Hpath].
    rewrite (Hreg Hpath Hconn). now apply mirrors_remove.
Qed.

(** After gc_master_init obtained the bus connection, and as long as
    clients only go away through the filter, the objects registered on the
    bus are the tracked clients, in the order of the client list, each
    under its own path. *)
Theorem registrations_mirror_clients
    (GEOCLUE_PROVIDERS_DIR : string)
    (gc_master_provider_new : string → option GcMasterProvider)
    (g_build_filename : string → string → string)
    (connection : DBusGConnection) (dir : string + list string) (ops : list Op) :
  forallb bus_op ops = true →
  mirrors (run ops (gc_master_init GEOCLUE_PROVIDERS_DIR gc_master_provider_new
                      g_build_filename (inr connection) dir statics0)).
Proof.
  pose proof (running_init GEOCLUE_PROVIDERS_DIR gc_master_provider_new
                g_build_filename connection dir) as [Hrun Hcl].
  destruct (gc_master_init_rest GEOCLUE_PROVIDERS_DIR gc_master_provider_new
              g_build_filename (inr connection) dir statics0) as (_ & _ & _ & Hreg).
  assert (Hmir : mirrors (gc_master_init GEOCLUE_PROVIDERS_DIR gc_master_provider_new
                            g_build_filename (inr connection) dir statics0)).
  { unfold mirrors. now rewrite Hcl, Hreg. }
  revert Hrun Hmir. generalize (gc_master_init GEOCLUE_PROVIDERS_DIR gc_master_provider_new
                                  g_build_filename (inr connection) dir statics0).
  induction ops as [|op ops IH]; intros m Hrun Hmir Hops; [exact Hmir|].
  simpl in Hops. apply andb_true_iff in Hops as [Hop Hops].
  simpl. apply IH; [now apply running_step | now apply mirrors_step | assumption].
Qed.

Lemma registrations_mirror_clients_witness :
  mirrors (run [Create ":1.42"; Create ":1.43"; Notify (name_lost ":1.42");
                Create ":1.42"] Demo.master).
Proof.
  apply (registrations_mirror_clients Demo.providers_dir Demo.provider_new
           Demo.build_filename 1 (inr Demo.directory)).
  reflexivity.
Defined.

(** Over any run the provider list is either the one the run started with,
    and then nothing was released, or it is empty, and then each provider
    the run started with was released once, in list order: no provider is
    released on its own, and none twice. *)
Theorem registry_all_or_nothing (ops : list Op) (m : Master) :
  (providers (run ops m) = providers m ∧ released (run ops m) = released m)
  ∨ (providers (run ops m) = []
     ∧ released (run ops m) = released m ++ providers m).
Proof.
  revert m. induction ops as [|op ops IH]; intros m; [now left|].
  cbn [run fold_left]. fold (run ops (step op m)).
  destruct (step_registry op m) as [[Hp Hr]|[Hp Hr]].
  - rewrite <- Hp, <- Hr. apply IH.
  - right. destruct (run_empty_registry ops _ Hp) as [-> ->]. auto.
Qed.

(** ** The counter past its wrap *)

(** The counter is a guint32 that only Create calls advance: after a run
    it holds its start value plus the number of Create calls, modulo 2^32,
    and the i-th Create call of the run returns the prefix followed by the
    start value plus i, modulo 2^32, printed as a signed int. A path
    therefore comes back after 2^32 Create calls. *)
Theorem handles_follow_counter_mod (ops : list Op) (m : Master) :
  (0 ≤ serial m < 2 ^ 32)%Z →
  serial (run ops m) = ((serial m + Z.of_nat (creations ops)) mod 2 ^ 32)%Z
  ∧ handles ops m
    = map (λ i, GEOCLUE_MASTER_PATH +:+ printf_d ((serial m + i) mod 2 ^ 32)%Z)
          (seqZ 0 (Z.of_nat (creations ops))).
Proof.
  revert m. induction ops as [|op ops IH]; intros m Hser.
  - simpl. rewrite Z.add_0_r, Z.mod_small by assumption. auto.
  - cbn [run fold_left handles]. fold (run ops (step op m)).
    pose proof (step_serial op m) as Hs.
    destruct op as [sender|old|message].
    + change (creations (Create sender :: ops)) with (S (creations ops)).
      destruct (IH (step (Create sender) m)) as [-> ->];
        [rewrite Hs; apply Z.mod_pos_bound; lia|].
      rewrite Hs. split.
      * rewrite Z.add_mod_idemp_l by lia. f_equal. lia.
      * rewrite (seqZ_cons 0 (Z.of_nat (S (creations ops)))) by lia. cbn [map app].
        destruct (create_fields m sender) as (-> & _).
        rewrite Z.add_0_r, (Z.mod_small (serial m)) by assumption. f_equal.
        replace (Z.pred (Z.of_nat (S (creations ops))))
          with (Z.of_nat (creations ops)) by lia.
        change (Z.succ 0) with (1 + 0)%Z. rewrite <- fmap_add_seqZ.
        change (Z.add 1 <$> seqZ 0 (Z.of_nat (creations ops)))
          with (map (Z.add 1) (seqZ 0 (Z.of_nat (creations ops)))).
        rewrite map_map. apply map_ext. intros i.
        rewrite Z.add_mod_idemp_l by lia. do 3 f_equal. lia.
    + change (creations (Destroy old :: ops)) with (creations ops).
      cbn [app]. destruct (IH (step (Destroy old) m)) as [-> ->]; rewrite Hs; auto.
    + change (creations (Notify message :: ops)) with (creations ops).
      cbn [app]. destruct (IH (step (Notify message) m)) as [-> ->]; rewrite Hs; auto.
Qed.

Lemma handles_follow_counter_mod_witness :
  handles [Create ":1.42"; Notify (name_lost ":1.42"); Create ":1.43"; Create ":1.44"]
    {| providers := []; clients := []; master_connection := Some 1;
       serial := 2 ^ 32 - 2; next_object := 0; registered := []; effects := [] |}
  = map (λ i, GEOCLUE_MASTER_PATH +:+ printf_d ((2 ^ 32 - 2 + i) mod 2 ^ 32)%Z)
        (seqZ 0 3).
Proof.
  apply (handles_follow_counter_mod
           [Create ":1.42"; Notify (name_lost ":1.42"); Create ":1.43"; Create ":1.44"]
           {| providers := []; clients := []; master_connection := Some 1;
              serial := 2 ^ 32 - 2; next_object := 0; registered := [];
              effects := [] |}).
  simpl. lia.
Defined.

(** At the wrap the paths run ...client-2, ...client-1, ...client0. *)
Example handles_across_the_wrap :
  handles [Create ":1.42"; Create ":1.43"; Create ":1.44"]
    {| providers := []; clients := []; master_connection := Some 1;
       serial := 2 ^ 32 - 2; next_object := 0; registered := []; effects := [] |}
  = ["/org/freedesktop/Geoclue/Master/client-2";
     "/org/freedesktop/Geoclue/Master/client-1";
     "/org/freedesktop/Geoclue/Master/client0"].
Proof. vm_compute. reflexivity. Qed.

(** ** The extension test of the scan *)

Lemma strrchr_suffix s c r : strrchr s c = Some r → ∃ stem, s = stem +:+ r.
Proof.
  revert r. induction s as [|a s IH]; intros r; simpl; [discriminate|].
  destruct (strrchr s c) as [r'|].
  - intros [= <-]. destruct (IH r' eq_refl) as [stem ->].
    now exists (String a stem).
  - destruct (Ascii.eqb a c); [|discriminate]. intros [= <-]. now exists "".
Qed.

Lemma strrchr_app stem s c r :
  strrchr s c = Some r → strrchr (stem +:+ s) c = Some r.
Proof.
  intros Hs. induction stem as [|a stem IH]; simpl; [assumption|].
  now rewrite IH.
Qed.

(** The scan accepts exactly the names that end in .provider, the bare
    name .provider included; a name that merely contains the extension is
    ignored. *)
Theorem provider_extension_is_suffix (filename : string) :
  has_provider_extension filename = true
  ↔ ∃ stem, filename = stem +:+ PROVIDER_EXTENSION.
Proof.
  unfold has_provider_extension. rewrite bool_decide_eq_true. split.
  - apply strrchr_suffix.
  - intros [stem ->]. now apply strrchr_app.
Qed.

Example provider_extension_cases :
  has_provider_extension ".provider" = true
  ∧ has_provider_extension "gps.v2.provider" = true
  ∧ has_provider_extension "gps.provider.bak" = false
  ∧ has_provider_extension "provider" = false
  ∧ has_provider_extension "gps.Provider" = false.
Proof. vm_compute. repeat split. Qed.

(** ** Loading, then selecting *)

Section ScanOrder.

Variable GEOCLUE_PROVIDERS_DIR : string.
Variable gc_master_provider_new : string → option GcMasterProvider.
Variable g_build_filename : string → string → string.

Lemma gc_master_init_providers connection filenames m :
  providers (gc_master_init GEOCLUE_PROVIDERS_DIR gc_master_provider_new
               g_build_filename (inr connection) (inr filenames) m)
  = rev (omap (loaded_from GEOCLUE_PROVIDERS_DIR gc_master_provider_new
                 g_build_filename) filenames) ++ providers m.
Proof.
  unfold gc_master_init, gc_master_load_providers.
  match goal with |- context [load_providers_loop _ _ _ filenames ?m'] =>
    destruct (load_providers_loop_spec GEOCLUE_PROVIDERS_DIR gc_master_provider_new
                g_build_filename filenames m') as [-> _] end.
  destruct filenames; reflexivity.
Qed.

End ScanOrder.

(** The loader prepends and the selector prepends again, so a selection
    made on a freshly initialised master lists the qualifying providers in
    the order in which the directory scan met their keyfiles. *)
Theorem selection_in_scan_order
    (GEOCLUE_PROVIDERS_DIR : string)
    (gc_master_provider_new : string → option GcMasterProvider)
    (g_build_filename : string → string → string)
    (connection : DBusGConnection) (filenames : list string)
    (iface_type min_accuracy : Z) (can_update : bool) (allowed : Z)
    (error : option GError) :
  gc_master_get_providers iface_type min_accuracy can_update allowed error
    (gc_master_init GEOCLUE_PROVIDERS_DIR gc_master_provider_new g_build_filename
       (inr connection) (inr filenames) statics0)
  = (List.filter
       (λ p, gc_master_provider_is_good p iface_type min_accuracy can_update allowed)
       (omap (loaded_from GEOCLUE_PROVIDERS_DIR gc_master_provider_new
                g_build_filename) filenames),
     error).
Proof.
  unfold gc_master_get_providers.
  rewrite gc_master_init_providers. cbn [providers statics0]. rewrite app_nil_r.
  set (loaded := omap _ filenames).
  assert (Hloop : get_providers_loop (rev loaded) [] iface_type min_accuracy
                    can_update allowed
                  = List.filter
                      (λ p, gc_master_provider_is_good p iface_type min_accuracy
                              can_update allowed) loaded).
  { rewrite get_providers_loop_filter, app_nil_r, List.filter_rev.
    apply rev_involutive. }
  destruct (rev loaded) as [|p l] eqn:Hrev; [|now rewrite <- Hloop].
  apply (f_equal (@rev _)) in Hrev. rewrite rev_involutive in Hrev.
  now rewrite Hrev.
Qed.

(** ** A master without a bus connection *)

Lemma no_connection_step op m :
  master_connection m = None ∧ registered m = [] →
  master_connection (step op m) = None ∧ registered (step op m) = [].
Proof.
  intros [Hconn Hreg].
  destruct op as [sender|old|message]; cbn [step].
  - unfold gc_iface_master_create. unfold_setters. rewrite Hconn. auto.
  - destruct (client_destroyed_rest m old) as (-> & _ & _ & ->). auto.
  - destruct (name_owner_changed_filter_cases message m)
      as [->|(name & old & new & client & m1 & _ & _ & _ & _ & _ & _ & _ & Hc
               & _ & _ & _ & Hr & _ & ->)]; [auto|].
    cbn [fst].
    destruct (client_destroyed_rest m1 (client_obj client)) as (-> & _ & _ & ->).
    split; [congruence|]. destruct Hr as [->| ->]; rewrite Hreg; reflexivity.
Qed.

(** When dbus_g_bus_get fails, gc_master_init returns before it scans the
    directory. Whatever happens afterwards, no provider is ever loaded,
    so every selection is empty, and no client object is ever registered,
    although Create calls go on returning paths. *)
Theorem no_bus_no_service
    (GEOCLUE_PROVIDERS_DIR : string)
    (gc_master_provider_new : string → option GcMasterProvider)
    (g_build_filename : string → string → string)
    (message : string) (dir : string + list string) (ops : list Op)
    (iface_type min_accuracy : Z) (can_update : bool) (allowed : Z)
    (error : option GError) :
  providers (run ops (gc_master_init GEOCLUE_PROVIDERS_DIR gc_master_provider_new
                        g_build_filename (inl message) dir statics0)) = []
  ∧ gc_master_get_providers iface_type min_accuracy can_update allowed error
      (run ops (gc_master_init GEOCLUE_PROVIDERS_DIR gc_master_provider_new
                  g_build_filename (inl message) dir statics0)) = ([], error)
  ∧ registered (run ops (gc_master_init GEOCLUE_PROVIDERS_DIR gc_master_provider_new
                           g_build_filename (inl message) dir statics0)) = []
  ∧ length (handles ops (gc_master_init GEOCLUE_PROVIDERS_DIR gc_master_provider_new
                           g_build_filename (inl message) dir statics0))
    = creations ops.
Proof.
  set (m0 := gc_master_init GEOCLUE_PROVIDERS_DIR gc_master_provider_new
               g_build_filename (inl message) dir statics0).
  assert (Hp : providers m0 = []) by reflexivity.
  destruct (run_empty_registry ops m0 Hp) as [Hrun _].
  split; [exact Hrun|]. split; [|split].
  - unfold gc_master_get_providers. now rewrite Hrun.
  - assert (Hk : master_connection m0 = None ∧ registered m0 = []) by (split; reflexivity).
    revert Hk. generalize m0. clear.
    induction ops as [|op ops IH]; intros m Hk; [apply Hk|].
    simpl. apply IH. now apply no_connection_step.
  - generalize m0. clear. induction ops as [|op ops IH]; intros m; [reflexivity|].
    cbn [handles]. rewrite length_app, IH.
    destruct op; reflexivity.
Qed.

(** ** A peer with several sessions *)

Lemma sessions_of_none name l :
  (∀ c, c ∈ l → client_sender c ≠ Some name) →
  sessions_of name l = [] ∧ sessions_of_others name l = l.
Proof.
  unfold sessions_of, sessions_of_others.
  induction l as [|c l IH]; intros Hnone; [auto|].
  destruct IH as [IH1 IH2]; [intros c' Hc'; apply Hnone; now right|].
  simpl. rewrite bool_decide_eq_false_2 by (apply Hnone; left).
  simpl. rewrite IH1, IH2. auto.
Qed.

Lemma g_list_remove_middle l1 c l2 :
  client_obj c ∉ map client_obj l1 →
  g_list_remove (l1 ++ c :: l2) (client_obj c) = l1 ++ l2.
Proof.
  induction l1 as [|c0 l1 IH]; simpl; intros Hnot.
  - now destruct (decide (client_obj c = client_obj c)).
  - apply not_elem_of_cons in Hnot as [Hne Hnot].
    destruct (decide (client_obj c0 = client_obj c)); [congruence|].
    now rewrite IH.
Qed.

(** What one delivery does to the sessions of a sender that has some. *)
Lemma sessions_of_found name l c :
  NoDup (map client_obj l) →
  find_client_by_sender l name = Some c →
  sessions_of name l = c :: sessions_of name (g_list_remove l (client_obj c))
  ∧ sessions_of_others name (g_list_remove l (client_obj c))
    = sessions_of_others name l.
Proof.
  intros Hnd Hfind.
  destruct (find_client_by_sender_split _ _ _ Hfind) as (l1 & l2 & -> & Hs & Hbefore).
  rewrite g_list_remove_middle.
  - destruct (sessions_of_none name l1 Hbefore) as [Hs1 Ho1].
    unfold sessions_of, sessions_of_others in *.
    rewrite !List.filter_app, Hs1, Ho1. simpl.
    rewrite bool_decide_eq_true_2 by assumption. auto.
  - rewrite map_app in Hnd. simpl in Hnd.
    apply NoDup_app in Hnd as (_ & Hdisj & _).
    intros Hin. apply (Hdisj _ Hin). left.
Qed.

(** A notification destroys one session. When the vanished peer holds
    several, delivering its notification once per session drops them all,
    newest first, and leaves the sessions of the other peers tracked in
    their order; a lookup of the peer then finds nothing. *)
Theorem deliveries_drain_sender (m : Master) (name : string) :
  running m →
  name ≠ "" →
  clients (deliver (length (sessions_of name (clients m))) (name_lost name) m)
  = sessions_of_others name (clients m)
  ∧ find_client_by_sender
      (clients (deliver (length (sessions_of name (clients m))) (name_lost name) m))
      name = None.
Proof.
  intros Hrun Hne.
  assert (Hclients :
    clients (deliver (length (sessions_of name (clients m))) (name_lost name) m)
    = sessions_of_others name (clients m)).
  { remember (length (sessions_of name (clients m))) as n eqn:Hn.
    revert m Hrun Hn. induction n as [|n IH]; intros m Hrun Hn.
    - simpl. destruct (find_client_by_sender (clients m) name) as [c|] eqn:Hfind.
      + destruct Hrun as (_ & Hnd & _).
        destruct (sessions_of_found name _ c Hnd Hfind) as [Hs _].
        rewrite Hs in Hn. discriminate.
      + rewrite find_client_by_sender_None in Hfind.
        now destruct (sessions_of_none name _ Hfind) as [_ ->].
    - destruct (find_client_by_sender (clients m) name) as [c|] eqn:Hfind.
      + pose proof (running_filter (name_lost name) m Hrun) as Hrun'.
        destruct Hrun as (_ & Hnd & _).
        destruct (sessions_of_found name _ c Hnd Hfind) as [Hs Ho].
        destruct (name_owner_changed_filter_found_state (name_lost name) m name
                    (Some name) (Some "") c eq_refl eq_refl
                    (non_empty_Some name Hne) eq_refl Hfind)
          as (m1 & Hres & _ & Hc & _).
        assert (Hcl : clients (name_owner_changed_filter (name_lost name) m).1
                      = g_list_remove (clients m) (client_obj c)).
        { rewrite Hres. cbn [fst]. now rewrite client_destroyed_clients, Hc. }
        cbn [deliver]. rewrite (IH _ Hrun'); rewrite Hcl; [assumption|].
        rewrite Hs in Hn. simpl in Hn. congruence.
      + rewrite find_client_by_sender_None in Hfind.
        destruct (sessions_of_none name _ Hfind) as [Hs _].
        rewrite Hs in Hn. discriminate. }
  split; [exact Hclients|].
  rewrite Hclients. apply find_client_by_sender_None.
  intros c Hc Hs. unfold sessions_of_others in Hc.
  apply list_elem_of_In, filter_In in Hc as [_ Hc].
  rewrite bool_decide_eq_true_2 in Hc by assumption. discriminate.
Qed.

Lemma deliveries_drain_sender_witness :
  clients (deliver
             (length (sessions_of ":1.42"
                        (clients (run [Create ":1.42"; Create ":1.43"; Create ":1.42"]
                                    Demo.master))))
             (name_lost ":1.42")
             (run [Create ":1.42"; Create ":1.43"; Create ":1.42"] Demo.master))
  = sessions_of_others ":1.42"
      (clients (run [Create ":1.42"; Create ":1.43"; Create ":1.42"] Demo.master)).
Proof.
  apply (deliveries_drain_sender
           (run [Create ":1.42"; Create ":1.43"; Create ":1.42"] Demo.master) ":1.42").
  - unfold running. apply (bool_decide_unpack _). vm_compute. reflexivity.
  - discriminate.
Defined.
